(** * Super Mario Bros. environment: memory decoding, reward and tile grid

    A shallow embedding of [gym_super_mario_bros/smb_env.py]
    (class [SuperMarioBrosEnv]) together with the properties of its
    decoded game state, reward function, termination signal, tile grid
    and start-screen skip loop.

    Conventions of the embedding.

    - [self.ram] is the NES work RAM exposed by nes-py: a NumPy array of
      0x800 cells of type [uint8].  It is a [list Z]; [ram_ok] states the
      length and the range of the cells.
    - The code targets NumPy 1.x, where a [uint8] scalar combined with a
      Python [int] is computed as a 64 bit integer (NumPy 2 refuses the
      product by 0x100 of [_x_position], so the code does not run there).
      All such results stay far below 2^63, so they are plain [Z]
      arithmetic.  The only
      [uint8]-with-[uint8] operation, the subtraction of
      [_left_x_position], wraps modulo 256 and is written that way.
    - [floor(a / 2^k)] goes through a double; for the magnitudes at hand
      the division by a power of two is exact, hence [Z.div].
    - Python's [%] takes the sign of the divisor, as [Z.modulo] does. *)

From Stdlib Require Import ZArith List String Ascii Bool Lia.
Import ListNotations.
Open Scope Z_scope.

(** ** Work RAM *)

Definition RAM := list Z.

Definition RAM_SIZE : nat := 2048.

Definition is_uint8 (v : Z) : bool := (0 <=? v) && (v <? 256).

Definition ram_ok (ram : RAM) : bool :=
  Nat.eqb (List.length ram) RAM_SIZE && forallb is_uint8 ram.

(** [self.ram[a]] at a constant address [a] below 0x800. *)
Definition ram_at (ram : RAM) (a : Z) : Z := nth (Z.to_nat a) ram 0.

(** [self.ram[a]] at a computed address: NumPy counts a negative index
    from the end and raises [IndexError] outside [-size, size). *)
Definition ram_index (ram : RAM) (a : Z) : option Z :=
  let size := Z.of_nat (List.length ram) in
  if a <? 0
  then (if - size <=? a then nth_error ram (Z.to_nat (size + a)) else None)
  else nth_error ram (Z.to_nat a).

(** [self.ram[a:a + n]] for [0 <= a] and [0 <= n]: a slice is clipped to
    the array. *)
Definition ram_slice (ram : RAM) (address length : Z) : list Z :=
  firstn (Z.to_nat length) (skipn (Z.to_nat address) ram).

(** [self.ram[a] = v] at a constant address. *)
Fixpoint list_set (l : list Z) (n : nat) (v : Z) : list Z :=
  match l, n with
  | [], _ => []
  | _ :: t, O => v :: t
  | h :: t, S n' => h :: list_set t n' v
  end.

Definition ram_set (ram : RAM) (a v : Z) : RAM := list_set ram (Z.to_nat a) v.

(** Writing consecutive cells, used to build concrete memory images. *)
Fixpoint ram_fill (ram : RAM) (a : Z) (cells : list Z) : RAM :=
  match cells with
  | [] => ram
  | c :: cs => ram_fill (ram_set ram a c) (a + 1) cs
  end.

Definition ram_zero : RAM := repeat 0 RAM_SIZE.

(** ** Digit cells: [str], [''.join] and [int] *)

Definition digit_char (d : Z) : ascii := ascii_of_nat (Z.to_nat (48 + d)).

(** Decimal digits of [n], most significant first, in front of [acc]. *)
Fixpoint digits_of (fuel : nat) (n : Z) (acc : string) : string :=
  match fuel with
  | O => acc
  | S fuel' =>
      let acc' := String (digit_char (n mod 10)) acc in
      if n <? 10 then acc' else digits_of fuel' (n / 10) acc'
  end.

(** [str(v)] for a [uint8] scalar: at most three digits, no sign. *)
Definition str_uint8 (v : Z) : string := digits_of 3 v EmptyString.

Definition digit_val (c : ascii) : option Z :=
  let n := Z.of_nat (nat_of_ascii c) in
  if (48 <=? n) && (n <=? 57) then Some (n - 48) else None.

Fixpoint int_digits (s : string) (acc : Z) : option Z :=
  match s with
  | EmptyString => Some acc
  | String c s' =>
      match digit_val c with
      | Some d => int_digits s' (10 * acc + d)
      | None => None
      end
  end.

(** [int(s)] on a string of decimal digits; [None] is [ValueError], raised
    on the empty string.  Signs, blanks and underscores, which [int] also
    accepts, never occur in a join of [str] of [uint8] values and are
    rejected here.  CPython from 3.11 on raises as well on a string of
    more than [int_max_str_digits] digits, which this function does not
    do; cells give such a string only from 1434 of them on, and the
    counters of the game take 2, 3 and 6. *)
Definition py_int (s : string) : option Z :=
  match s with
  | EmptyString => None
  | _ => int_digits s 0
  end.

Definition join (l : list string) : string := String.concat EmptyString l.

(** Default of [sys.int_max_str_digits]. *)
Definition int_max_str_digits : nat := 4300.

Definition _read_mem_range (ram : RAM) (address length : Z) : option Z :=
  py_int (join (map str_uint8 (ram_slice ram address length))).

(** Positional value of a digit sequence, most significant digit first. *)
Definition decimal_value (ds : list Z) : Z :=
  fold_left (fun acc d => 10 * acc + d) ds 0.

(** Number of characters [str] prints for a byte. *)
Definition str_width (v : Z) : Z :=
  if v <? 10 then 1 else if v <? 100 then 2 else 3.

(** Value of the concatenated decimal renderings of a sequence of bytes. *)
Definition concat_value (vs : list Z) : Z :=
  fold_left (fun acc v => acc * 10 ^ str_width v + v) vs 0.

(** ** Decoded fields *)

Definition _level (ram : RAM) : Z := ram_at ram 0x075f * 4 + ram_at ram 0x075c.
Definition _world (ram : RAM) : Z := ram_at ram 0x075f + 1.
Definition _stage (ram : RAM) : Z := ram_at ram 0x075c + 1.
Definition _area (ram : RAM) : Z := ram_at ram 0x0760 + 1.
Definition _score (ram : RAM) : option Z := _read_mem_range ram 0x07de 6.
Definition _time (ram : RAM) : option Z := _read_mem_range ram 0x07f8 3.
Definition _coins (ram : RAM) : option Z := _read_mem_range ram 0x07ed 2.
Definition _life (ram : RAM) : Z := ram_at ram 0x075a.

Definition _x_position (ram : RAM) : Z :=
  ram_at ram 0x6d * 0x100 + ram_at ram 0x86.

Definition _left_x_position (ram : RAM) : Z :=
  (((ram_at ram 0x86 - ram_at ram 0x071c) mod 256) mod 256).

Definition _y_pixel (ram : RAM) : Z := ram_at ram 0x03b8.
Definition _y_viewport (ram : RAM) : Z := ram_at ram 0x00b5.

Definition _y_position (ram : RAM) : Z :=
  if _y_viewport ram <? 1
  then 255 + (255 - _y_pixel ram)
  else 255 - _y_pixel ram.

Definition _player_state (ram : RAM) : Z := ram_at ram 0x000e.

Definition _is_dying (ram : RAM) : bool :=
  (_player_state ram =? 0x0b) || (_y_viewport ram >? 1).

Definition _is_dead (ram : RAM) : bool := _player_state ram =? 0x06.

Definition _is_game_over (ram : RAM) : bool := _life ram =? 0xff.

Definition _BUSY_STATES : list Z := [0x00; 0x01; 0x02; 0x03; 0x04; 0x05; 0x07].

Definition _is_busy (ram : RAM) : bool :=
  existsb (Z.eqb (_player_state ram)) _BUSY_STATES.

Definition _is_world_over (ram : RAM) : bool := ram_at ram 0x0770 =? 2.

Definition _ENEMY_TYPE_ADDRESSES : list Z := [0x0016; 0x0017; 0x0018; 0x0019; 0x001A].

Definition _STAGE_OVER_ENEMIES : list Z := [0x2D; 0x31].

(** [np.isin(xs, ys)]: element-wise membership. *)
Definition np_isin (xs ys : list Z) : list bool :=
  map (fun x => existsb (Z.eqb x) ys) xs.

(** [.any()] of a boolean array. *)
Definition np_any (bs : list bool) : bool := existsb (fun b => b) bs.

Definition _is_stage_over (ram : RAM) : bool :=
  if np_any (np_isin (map (ram_at ram) _ENEMY_TYPE_ADDRESSES) _STAGE_OVER_ENEMIES)
  then ram_at ram 0x001D =? 3
  else false.

Definition _flag_get (ram : RAM) : bool :=
  _is_world_over ram || _is_stage_over ram.

(** ** The environment object

    The work RAM together with the Python-side attributes of
    [SuperMarioBrosEnv].  A target component is [None] when the
    environment is not pinned to a stage. *)

Record Env := mkEnv {
  ram : RAM;
  _target_world : option Z;
  _target_stage : option Z;
  _target_area : option Z;
  _time_last : Z;
  _x_position_last : Z;
  r : Z
}.

Definition set_ram (e : Env) (m : RAM) : Env :=
  mkEnv m (_target_world e) (_target_stage e) (_target_area e)
        (_time_last e) (_x_position_last e) (r e).

Definition set_time_last (e : Env) (v : Z) : Env :=
  mkEnv (ram e) (_target_world e) (_target_stage e) (_target_area e)
        v (_x_position_last e) (r e).

Definition set_x_position_last (e : Env) (v : Z) : Env :=
  mkEnv (ram e) (_target_world e) (_target_stage e) (_target_area e)
        (_time_last e) v (r e).

Definition set_r (e : Env) (v : Z) : Env :=
  mkEnv (ram e) (_target_world e) (_target_stage e) (_target_area e)
        (_time_last e) (_x_position_last e) v.

Definition is_some {A : Type} (o : option A) : bool :=
  match o with Some _ => true | None => false end.

Definition is_single_stage_env (e : Env) : bool :=
  is_some (_target_world e) && is_some (_target_area e).

(** Sequencing of computations that may raise. *)
Definition bind {A B : Type} (o : option A) (f : A -> option B) : option B :=
  match o with
  | Some a => f a
  | None => None
  end.

Notation "x <- c ;; k" := (bind c (fun x => k))
  (at level 61, c at next level, right associativity).

(** ** Reward function *)

(** Returns the reward and the environment with the previous-position
    attribute overwritten. *)
Definition _x_reward (e : Env) : Z * Env :=
  let _reward := _x_position (ram e) - _x_position_last e in
  let e' := set_x_position_last e (_x_position (ram e)) in
  if _reward =? 0 then (-10, e') else (0, e').

Definition _time_penalty (e : Env) : option Z :=
  t0 <- _time (ram e) ;;
  let _reward := t0 - _time_last e in
  let _reward := 0 in
  t <- _time (ram e) ;;
  if t =? 0 then Some (-5000)
  else if _reward >? 0 then Some 0
  else Some 5.

Definition _death_penalty (e : Env) : Z :=
  if _is_dying (ram e) || _is_dead (ram e) then -5000 else 0.

Definition _get_reward (e : Env) : option (Z * Env) :=
  let '(xr, e1) := _x_reward e in
  let dp := _death_penalty e1 in
  tp <- _time_penalty e1 ;;
  let e2 := set_r e1 (xr + dp + tp) in
  let e3 := if _flag_get (ram e2) then set_r e2 (r e2 + 1000000) else e2 in
  Some (r e3, e3).

(** ** Episode termination *)

Definition _get_done (e : Env) : bool :=
  if is_single_stage_env e
  then _is_dying (ram e) || _is_dead (ram e) || _flag_get (ram e)
  else _is_game_over (ram e).

(** ** Tile grid *)

Definition addr_enemy_page : Z := 0x6e.
Definition addr_enemy_x : Z := 0x87.
Definition addr_enemy_y : Z := 0xcf.
Definition addr_tiles : Z := 0x500.

(** [range(start, stop, step)] for a positive step. *)
Definition py_range (start stop step : Z) : list Z :=
  map (fun i => start + step * Z.of_nat i)
      (seq 0 (Z.to_nat ((stop - start + step - 1) / step))).

Record Enemy := mkEnemy { enemy_x : Z; enemy_y : Z }.

Definition _get_enemies (ram : RAM) : list Enemy :=
  flat_map
    (fun slot =>
       let local_enemy := ram_at ram (0xF + slot) in
       if negb (local_enemy =? 0)
       then
         let local_ex := ram_at ram (addr_enemy_page + slot) * 0x100
                         + ram_at ram (addr_enemy_x + slot) in
         let local_ey := ram_at ram (addr_enemy_y + slot) in
         [mkEnemy local_ex local_ey]
       else [])
    (py_range 0 4 1).

(** The result comes with the addresses of the tile table that were
    read, in order; [None] is an [IndexError]. *)
Definition _get_tile_type (ram : RAM) (box_x box_y : Z) : option (Z * list Z) :=
  let left_x := _left_x_position ram in
  let local_x := _x_position ram - left_x + box_x + 112 in
  let local_y := box_y + 96 in
  let local_page := (local_x / 256) mod 2 in
  let sub_x := (local_x mod 256) / 16 in
  let sub_y := (local_y - 32) / 16 in
  let curr_tile_addr := addr_tiles + local_page * 13 * 16 + sub_y * 16 + sub_x in
  if (sub_y >=? 13) || (sub_y <? 0) then Some (0, [])
  else
    v <- ram_index ram curr_tile_addr ;;
    if negb (v =? 0) then Some (1, [curr_tile_addr])
    else Some (0, [curr_tile_addr]).

(** Offsets for which the double-precision quotients of
    [_get_tile_type] are exact. *)
Definition small_offset (v : Z) : Prop := - 2 ^ 31 <= v <= 2 ^ 31.

(** Sequencing of a list of computations that may raise. *)
Fixpoint map_opt {A B : Type} (f : A -> option B) (l : list A) : option (list B) :=
  match l with
  | [] => Some []
  | a :: l' => b <- f a ;; bs <- map_opt f l' ;; Some (b :: bs)
  end.

(** One cell of the grid: the body of the inner loop of [_get_tiles]. *)
Definition tile_cell (ram : RAM) (enemies : list Enemy) (left_x y_viewport : Z)
    (box_y box_x : Z) : option Z :=
  let tile_value := 0 in
  tt <- _get_tile_type ram box_x box_y ;;
  let curr_tile_type := fst tt in
  let tile_value :=
    if (curr_tile_type =? 1) && (_y_position ram + box_y <? 0x1B0)
    then 1 else tile_value in
  let tile_value :=
    fold_left
      (fun tile_value i =>
         let dist_x := Z.abs (enemy_x i - (_x_position ram + box_x - left_x + 108)) in
         let dist_y := Z.abs (enemy_y i - (90 + box_y)) in
         if (dist_x <=? 8) && (dist_y <=? 8) then 2 else tile_value)
      enemies tile_value in
  let dist_x := Z.abs (_x_position ram - (_x_position ram + box_x - left_x + 108)) in
  let dist_y := Z.abs (_y_pixel ram - (80 + box_y)) in
  let tile_value :=
    if (y_viewport =? 1) && (dist_x <=? 8) && (dist_y <=? 8)
    then 3 else tile_value in
  Some tile_value.

Definition _get_tiles (e : Env) : option (list (list Z)) :=
  let enemies := _get_enemies (ram e) in
  let left_x := _left_x_position (ram e) in
  let y_viewport := _y_viewport (ram e) in
  map_opt
    (fun box_y =>
       map_opt (tile_cell (ram e) enemies left_x y_viewport box_y)
               (py_range (-7 * 16) (8 * 16) 16))
    (py_range (-4 * 16) (8 * 16) 16).

(** ** The emulator and the start-screen skip

    nes-py advances the console by one frame under a controller byte;
    the console has state of its own besides the work RAM.  The
    environment writes to the RAM between frames.  A session records,
    next to the state, the frames run and the cells written so far. *)

Record Emulator := mkEmulator {
  Core : Type;
  frame : Z -> Core * RAM -> Core * RAM
}.

Inductive Event : Type :=
| EvFrame (action : Z)
| EvStore (address value : Z).

Record Session (E : Emulator) := mkSession {
  core : Core E;
  env : Env;
  trace : list Event
}.

Arguments mkSession {E} _ _ _.
Arguments core {E} _.
Arguments env {E} _.
Arguments trace {E} _.

Definition with_env {E : Emulator} (s : Session E) (e : Env) : Session E :=
  mkSession (core s) e (trace s).

(** A value stored into a [uint8] cell is truncated to a byte. *)
Definition to_uint8 (v : Z) : Z := v mod 256.

Definition _frame_advance {E : Emulator} (action : Z) (s : Session E) : Session E :=
  let '(c, m) := frame E action (core s, ram (env s)) in
  mkSession c (set_ram (env s) m) (trace s ++ [EvFrame action]).

(** [self.ram[address] = value]. *)
Definition store {E : Emulator} (address value : Z) (s : Session E) : Session E :=
  mkSession (core s)
            (set_ram (env s) (ram_set (ram (env s)) address (to_uint8 value)))
            (trace s ++ [EvStore address (to_uint8 value)]).

(** [None] is the [TypeError] of [None - 1]. *)
Definition _write_stage {E : Emulator} (s : Session E) : option (Session E) :=
  w <- _target_world (env s) ;;
  let s := store 0x075f (w - 1) s in
  st <- _target_stage (env s) ;;
  let s := store 0x075c (st - 1) s in
  a <- _target_area (env s) ;;
  Some (store 0x0760 (a - 1) s).

Definition _runout_prelevel_timer {E : Emulator} (s : Session E) : Session E :=
  store 0x07A0 0 s.

(** [while cond: body], unrolled at most [fuel] times; [None] when the
    loop raises or has not finished by then. *)
Fixpoint while_loop {St : Type} (fuel : nat) (cond : St -> option bool)
    (body : St -> option St) (s : St) : option St :=
  match fuel with
  | O => None
  | S fuel' =>
      c <- cond s ;;
      if c then s' <- body s ;; while_loop fuel' cond body s'
      else Some s
  end.

(** [n] consecutive runs of a loop body. *)
Fixpoint iterate {St : Type} (n : nat) (body : St -> option St) (s : St) : option St :=
  match n with
  | O => Some s
  | S n' => s' <- body s ;; iterate n' body s'
  end.

(** First loop of [_skip_start_screen]. *)
Definition start_cond {E : Emulator} (s : Session E) : option bool :=
  t <- _time (ram (env s)) ;; Some (t =? 0).

Definition start_body {E : Emulator} (s : Session E) : option (Session E) :=
  let s1 := _frame_advance 8 s in
  s2 <- (if is_single_stage_env (env s1) then _write_stage s1 else Some s1) ;;
  let s3 := _frame_advance 0 s2 in
  Some (_runout_prelevel_timer s3).

(** Second loop of [_skip_start_screen]. *)
Definition idle_cond {E : Emulator} (s : Session E) : option bool :=
  t <- _time (ram (env s)) ;; Some (t >=? _time_last (env s)).

Definition idle_body {E : Emulator} (s : Session E) : option (Session E) :=
  t <- _time (ram (env s)) ;;
  let s1 := with_env s (set_time_last (env s) t) in
  let s2 := _frame_advance 8 s1 in
  Some (_frame_advance 0 s2).

Definition _skip_start_screen {E : Emulator} (fuel : nat) (s : Session E)
  : option (Session E) :=
  let s := _frame_advance 8 s in
  let s := _frame_advance 0 s in
  s <- while_loop fuel start_cond start_body s ;;
  t <- _time (ram (env s)) ;;
  let s := with_env s (set_time_last (env s) t) in
  while_loop fuel idle_cond idle_body s.

(** Cells written by [_write_stage]. *)
Definition stage_stores (e : Env) : list Event :=
  match _target_world e, _target_stage e, _target_area e with
  | Some w, Some st, Some a =>
      [EvStore 0x075f (to_uint8 (w - 1));
       EvStore 0x075c (to_uint8 (st - 1));
       EvStore 0x0760 (to_uint8 (a - 1))]
  | _, _, _ => []
  end.

(** Frames and stores of one pass of the first loop. *)
Definition start_events (e : Env) : list Event :=
  [EvFrame 8]
  ++ (if is_single_stage_env e then stage_stores e else [])
  ++ [EvFrame 0; EvStore 0x07A0 0].

(** Frames of one pass of the second loop. *)
Definition idle_events : list Event := [EvFrame 8; EvFrame 0].

Fixpoint repeat_events (n : nat) (evs : list Event) : list Event :=
  match n with
  | O => []
  | S n' => evs ++ repeat_events n' evs
  end.

(** ** A console used in examples

    Its only state is the number of frames run.  The clock shows 0
    during the first three frames, then starts from 400 and loses one
    unit every four frames. *)

Definition clock_cells (t : Z) : list Z := [t / 100; (t / 10) mod 10; t mod 10].

Definition demo_clock (frames : nat) : Z :=
  let c := Z.of_nat frames in
  if c <? 4 then 0 else 400 - (c - 4) / 4.

Definition demo_frame (action : Z) (st : nat * RAM) : nat * RAM :=
  let '(c, m) := st in
  (S c, ram_fill m 0x07f8 (clock_cells (demo_clock (S c)))).

Definition demo_console : Emulator := mkEmulator nat demo_frame.

Definition demo_env (target : option Z) : Env :=
  mkEnv ram_zero target target target 0 0 0.

Definition demo_session (target : option Z) : Session demo_console :=
  @mkSession demo_console O (demo_env target) [].

(** ** Memory images used in examples *)

Definition score_ram : RAM := ram_fill ram_zero 0x07de [0; 0; 0; 7; 5; 0].
Definition time_ram : RAM := ram_fill ram_zero 0x07f8 [0; 4; 5].
Definition wide_cell_ram : RAM := ram_fill ram_zero 0x07f8 [0; 12; 5].
Definition above_ram : RAM := ram_set (ram_set ram_zero 0x00b5 0) 0x03b8 200.
Definition visible_ram : RAM := ram_set (ram_set ram_zero 0x00b5 1) 0x03b8 200.
Definition flagpole_ram : RAM := ram_set (ram_set ram_zero 0x0018 0x31) 0x001D 3.
Definition vine_ram : RAM := ram_set (ram_set ram_zero 0x0018 0x2F) 0x001D 3.
Definition dead_ram : RAM := ram_set (ram_fill ram_zero 0x07f8 [4; 0; 0]) 0x000e 0x06.
Definition flag_env : Env :=
  mkEnv (ram_fill flagpole_ram 0x07f8 [3; 0; 0]) (Some 1) (Some 1) (Some 1) 300 0 0.
Definition dead_env : Env := mkEnv dead_ram (Some 1) (Some 1) (Some 1) 0 0 0.

(** Mario at screen column 120 and row 176, in the visible viewport, with
    an enemy in slot 0 at world position (124, 186): both fall into the
    grid cell of row 10 and column 8. *)
Definition overlap_ram : RAM :=
  ram_set (ram_set (ram_set (ram_set (ram_set (ram_set ram_zero
    0x0086 120) 0x03b8 176) 0x00b5 1) 0x000F 1) 0x0087 124) 0x00cf 186.

Definition overlap_env : Env := mkEnv overlap_ram None None None 0 0 0.

(** The same image with Mario above the viewport. *)
Definition overlap_hidden_env : Env :=
  mkEnv (ram_set overlap_ram 0x00b5 0) None None None 0 0 0.

(** Entry of a grid, by row and column. *)
Definition grid_at (grid : list (list Z)) (i j : nat) : option Z :=
  row <- nth_error grid i ;; nth_error row j.

(** The console of a session: what a frame reads and writes. *)
Definition console {E : Emulator} (s : Session E) : Core E * RAM :=
  (core s, ram (env s)).

(** Start held for one frame, then released for one frame. *)
Definition press_release {E : Emulator} (c : Core E * RAM) : Core E * RAM :=
  frame E 0 (frame E 8 c).

(** The time shown after [k] times press and release from the console [c]. *)
Definition clock_after {E : Emulator} (c : Core E * RAM) (k : nat) : option Z :=
  _time (snd (Nat.iter k press_release c)).

(** A run of [_skip_start_screen] from [s] to [s'] with [n] passes of the
    first loop and [m] passes of the second.  The last three parts say
    what the second loop compares: it is entered at least once, each
    pass is one press and release on the console, and the times [t] and
    [t'] shown at two successive tests satisfy [t <= t'] as long as the
    loop goes on and [t' < t] at the test that ends it, [t] being then
    the remembered time. *)
Definition skip_run {E : Emulator} (s s' : Session E) (n m : nat) : Prop :=
  let s0 := _frame_advance 0 (_frame_advance 8 s) in
  exists (s1 : Session E) (t1 : Z),
    iterate n start_body s0 = Some s1
    /\ (forall k, (k < n)%nat ->
          exists sk, iterate k start_body s0 = Some sk
                     /\ _time (ram (env sk)) = Some 0)
    /\ _time (ram (env s1)) = Some t1
    /\ t1 <> 0
    /\ iterate m idle_body (with_env s1 (set_time_last (env s1) t1)) = Some s'
    /\ (forall k, (k < m)%nat ->
          exists sk t,
            iterate k idle_body (with_env s1 (set_time_last (env s1) t1)) = Some sk
            /\ _time (ram (env sk)) = Some t
            /\ t >= _time_last (env sk))
    /\ (exists t, _time (ram (env s')) = Some t /\ t < _time_last (env s'))
    /\ trace s' = trace s ++ [EvFrame 8; EvFrame 0]
                  ++ repeat_events n (start_events (env s))
                  ++ repeat_events m idle_events
    /\ (1 <= m)%nat
    /\ console s' = Nat.iter m press_release (console s1)
    /\ (forall k, (k < m)%nat ->
          exists t t',
            clock_after (console s1) k = Some t
            /\ clock_after (console s1) (S k) = Some t'
            /\ ((S k < m)%nat -> t <= t')
            /\ (S k = m -> t' < t /\ _time_last (env s') = t)).

(** Two environments pinned to the same target, or both to none. *)
Definition same_target (e e' : Env) : Prop :=
  _target_world e' = _target_world e
  /\ _target_stage e' = _target_stage e
  /\ _target_area e' = _target_area e.

(** What a step keeps, the target, and what it appends to the record. *)
Definition extends {E : Emulator} (evs : list Event) (s s' : Session E) : Prop :=
  trace s' = trace s ++ evs /\ same_target (env s) (env s').

(** ** Further accessors *)

Definition _x_position_lol (ram : RAM) : Z :=
  ram_at ram 0x6d * 0x100 + ram_at ram 0x86 + 20.

(** [_is_enemy]: the bytes of the enemy-type slots, in slot order. *)
Definition _is_enemy (ram : RAM) : list Z :=
  fold_left (fun hols i => hols ++ [ram_at ram i]) _ENEMY_TYPE_ADDRESSES [].

(** The legal range of rewards declared by the class. *)
Definition reward_range : Z * Z := (-15, 15).

(** ** Player status

    [_STATUS_MAP] is a module-level [defaultdict] whose factory returns
    ['fireball'].  Subscripting it with a key it does not hold inserts
    the key, so the map is a piece of state. *)

Definition StatusMap := list (Z * string).

Definition _STATUS_MAP : StatusMap := [(0, "small"%string); (1, "tall"%string)].

Fixpoint dict_get (d : StatusMap) (k : Z) : option string :=
  match d with
  | [] => None
  | (k', v) :: d' => if k' =? k then Some v else dict_get d' k
  end.

(** [d[k]] on the [defaultdict]. *)
Definition defaultdict_getitem (d : StatusMap) (k : Z) : string * StatusMap :=
  match dict_get d k with
  | Some v => (v, d)
  | None => ("fireball"%string, d ++ [(k, "fireball"%string)])
  end.

Definition _player_status (d : StatusMap) (ram : RAM) : string * StatusMap :=
  defaultdict_getitem d (ram_at ram 0x0756).

(** The status a register value stands for. *)
Definition status_name (v : Z) : string :=
  if v =? 0 then "small"%string
  else if v =? 1 then "tall"%string
  else "fireball"%string.

(** What lookups keep of [_STATUS_MAP]: the two initial entries, and
    nothing but ['fireball'] under any other key. *)
Definition status_map_ok (d : StatusMap) : Prop :=
  dict_get d 0 = Some "small"%string
  /\ dict_get d 1 = Some "tall"%string
  /\ forall k, dict_get d k = None \/ dict_get d k = Some (status_name k).

(** ** Reward, second form, and resets *)

(** The property [_reward]: the same three terms in another order,
    without the flag bonus and without a write to [self.r]. *)
Definition _reward (e : Env) : option (Z * Env) :=
  let '(xr, e1) := _x_reward e in
  tp <- _time_penalty e1 ;;
  let dp := _death_penalty e1 in
  Some (xr + tp + dp, e1).

Definition _will_reset (e : Env) : Env :=
  let e := set_time_last e 0 in
  set_x_position_last e 0.

Definition _did_reset (e : Env) : option Env :=
  t <- _time (ram e) ;;
  let e := set_time_last e t in
  Some (set_x_position_last e (_x_position (ram e))).

(** ** The info dictionary *)

Record Info := mkInfo {
  info_coins : Z;
  info_flag_get : bool;
  info_life : Z;
  info_score : Z;
  info_stage : Z;
  info_status : string;
  info_time : Z;
  info_world : Z;
  info_x_pos : Z;
  info_y_pos : Z;
  info_enemy : list (list Z);
  info_reward : Z
}.

(** The values are computed in the order of the keys. *)
Definition _get_info (d : StatusMap) (e : Env) : option (Info * StatusMap) :=
  coins <- _coins (ram e) ;;
  let flag_get := _flag_get (ram e) in
  let life := _life (ram e) in
  score <- _score (ram e) ;;
  let stage := _stage (ram e) in
  let '(status, d') := _player_status d (ram e) in
  time <- _time (ram e) ;;
  let world := _world (ram e) in
  let x_pos := _x_position (ram e) in
  let y_pos := _y_position (ram e) in
  enemy <- _get_tiles e ;;
  Some (mkInfo coins flag_get life score stage status time world
               x_pos y_pos enemy (r e), d').

(** ** Skipping frames after a step *)

Definition _skip_change_area {E : Emulator} (s : Session E) : Session E :=
  let change_area_timer := ram_at (ram (env s)) 0x06DE in
  if (change_area_timer >? 1) && (change_area_timer <? 255)
  then store 0x06DE 1 s
  else s.

Definition occupied_cond {E : Emulator} (s : Session E) : option bool :=
  Some (_is_busy (ram (env s)) || _is_world_over (ram (env s))).

Definition occupied_body {E : Emulator} (s : Session E) : option (Session E) :=
  let s := _runout_prelevel_timer s in
  Some (_frame_advance 0 s).

Definition _skip_occupied_states {E : Emulator} (fuel : nat) (s : Session E)
  : option (Session E) :=
  while_loop fuel occupied_cond occupied_body s.

Definition world_cond {E : Emulator} (time : Z) (s : Session E) : option bool :=
  t <- _time (ram (env s)) ;; Some (t =? time).

Definition world_body {E : Emulator} (s : Session E) : option (Session E) :=
  Some (_frame_advance 0 s).

Definition _skip_end_of_world {E : Emulator} (fuel : nat) (s : Session E)
  : option (Session E) :=
  if _is_world_over (ram (env s))
  then
    time <- _time (ram (env s)) ;;
    while_loop fuel (world_cond time) world_body s
  else Some s.

Definition _kill_mario {E : Emulator} (s : Session E) : Session E :=
  let s := store 0x000e 0x06 s in
  _frame_advance 0 s.

Definition _did_step {E : Emulator} (fuel : nat) (done : bool) (s : Session E)
  : option (Session E) :=
  if done then Some s
  else
    let s := if _is_dying (ram (env s)) then _kill_mario s else s in
    s <- (if negb (is_single_stage_env (env s))
          then _skip_end_of_world fuel s
          else Some s) ;;
    let s := _skip_change_area s in
    _skip_occupied_states fuel s.

(** Frames and stores of one pass of [_skip_occupied_states]. *)
Definition occupied_events : list Event := [EvStore 0x07A0 0; EvFrame 0].

(** What [_did_step] may do to the console: run a frame with no button
    held, or write one of three cells. *)
Definition quiet_event (ev : Event) : bool :=
  match ev with
  | EvFrame action => action =? 0
  | EvStore address value =>
      ((address =? 0x000e) && (value =? 0x06))
      || ((address =? 0x06DE) && (value =? 1))
      || ((address =? 0x07A0) && (value =? 0))
  end.

(** A stretch of calls made of quiet events only, the target kept. *)
Definition quiet_step {E : Emulator} (s s' : Session E) : Prop :=
  exists evs, extends evs s s' /\ forallb quiet_event evs = true.



(** ** The training loop

    [mario1.py] feeds the network the grid of [info["enemy"]] reshaped to
    one row of [state_size] values and adds a bonus to the reward each
    time Mario passes a checkpoint. *)

Definition state_size : Z := 180.

(** [np.reshape(grid, [1, n])]: one row in row-major order; [None] is the
    [ValueError] raised when the grid does not hold [n] values. *)
Definition np_reshape_row (grid : list (list Z)) (n : Z) : option (list (list Z)) :=
  let flat := List.concat grid in
  if Z.of_nat (List.length flat) =? n then Some [flat] else None.

Record Shaping := mkShaping {
  checkpoint : Z;
  contador : Z;
  total_reward : Z
}.

(** State at the start of an episode, after the first step. *)
Definition shaping_init (x_pos : Z) : Shaping := mkShaping (x_pos + 100) 1 0.

(** The reward bookkeeping of one pass of the inner loop, from the
    position and the reward found in [info]; returns the reward that is
    remembered. *)
Definition shaping_step (st : Shaping) (x_pos reward : Z) : Z * Shaping :=
  if x_pos >=? checkpoint st
  then
    let reward := reward + (3000 + 500 * contador st) in
    (reward, mkShaping (checkpoint st + 100) (contador st + 1)
                       (total_reward st + reward))
  else (reward, mkShaping (checkpoint st) (contador st) (total_reward st + reward)).

(** The bookkeeping over the successive observations of an episode. *)
Definition shaping_run (st : Shaping) (obs : list (Z * Z)) : Shaping :=
  fold_left (fun st o => snd (shaping_step st (fst o) (snd o))) obs st.

(** Sum of the rewards found in [info] over the observations. *)
Definition sum_rewards (obs : list (Z * Z)) : Z :=
  fold_left (fun acc o => acc + snd o) obs 0.

(** ** Further memory images used in examples *)

Definition pipe_ram : RAM := ram_set (ram_set ram_zero 0x06DE 40) 0x000e 0x08.
Definition pipe_session : Session demo_console :=
  @mkSession demo_console O (mkEnv pipe_ram None None None 0 0 0) [].

(** The example console at the end of a world, the clock at 400. *)
Definition world_over_session : Session demo_console :=
  @mkSession demo_console 4%nat
    (mkEnv (ram_set (ram_fill ram_zero 0x07f8 [4; 0; 0]) 0x0770 2)
           None None None 0 0 0) [].

(** Mario falling into a pit (viewport 2) in normal state, single stage. *)
Definition pit_session : Session demo_console :=
  @mkSession demo_console O
    (mkEnv (ram_set (ram_set ram_zero 0x00b5 2) 0x000e 0x08)
           (Some 1) (Some 1) (Some 1) 0 0 0) [].

Definition stage_ram : RAM := ram_set (ram_set ram_zero 0x075f 2) 0x075c 1.

Definition play_ram : RAM :=
  ram_set (ram_fill overlap_ram 0x07f8 [3; 9; 1]) 0x000e 0x08.
Definition play_env : Env := mkEnv play_ram (Some 1) (Some 1) (Some 1) 0 0 0.

(** * Properties *)

(** ** Memory images *)

Lemma ram_ok_length (m : RAM) :
  ram_ok m = true -> List.length m = RAM_SIZE.
Proof.
  unfold ram_ok. intros H. apply andb_prop in H. destruct H as [H _].
  now apply Nat.eqb_eq.
Qed.

Lemma ram_ok_bytes (m : RAM) :
  ram_ok m = true -> Forall (fun v => 0 <= v < 256) m.
Proof.
  unfold ram_ok. intros H. apply andb_prop in H. destruct H as [_ H].
  rewrite forallb_forall in H. apply Forall_forall. intros v Hv.
  specialize (H v Hv). unfold is_uint8 in H. lia.
Qed.

Lemma ram_at_byte (m : RAM) (a : Z) :
  ram_ok m = true -> 0 <= ram_at m a < 256.
Proof.
  intros H. unfold ram_at.
  destruct (nth_in_or_default (Z.to_nat a) m 0) as [Hin | Hd].
  - pose proof (ram_ok_bytes m H) as Hb. rewrite Forall_forall in Hb.
    now apply Hb.
  - rewrite Hd. lia.
Qed.

Lemma in_firstn {A : Type} (x : A) (n : nat) (l : list A) :
  In x (firstn n l) -> In x l.
Proof.
  intros H. rewrite <- (firstn_skipn n l). apply in_or_app. now left.
Qed.

Lemma in_skipn {A : Type} (x : A) (n : nat) (l : list A) :
  In x (skipn n l) -> In x l.
Proof.
  intros H. rewrite <- (firstn_skipn n l). apply in_or_app. now right.
Qed.

Lemma ram_slice_bytes (m : RAM) (a n : Z) :
  ram_ok m = true -> Forall (fun v => 0 <= v < 256) (ram_slice m a n).
Proof.
  intros H. pose proof (ram_ok_bytes m H) as Hb.
  rewrite Forall_forall in *. intros v Hv. apply Hb.
  unfold ram_slice in Hv.
  apply in_firstn in Hv. now apply in_skipn in Hv.
Qed.

Lemma ram_slice_length (m : RAM) (a n : Z) :
  ram_ok m = true -> 0 <= a -> 0 <= n -> a + n <= 2048 ->
  List.length (ram_slice m a n) = Z.to_nat n.
Proof.
  intros H Ha Hn Hb. unfold ram_slice.
  rewrite length_firstn, length_skipn, (ram_ok_length m H).
  unfold RAM_SIZE. lia.
Qed.

Lemma ram_index_in_range (m : RAM) (a : Z) :
  ram_ok m = true -> 0 <= a < 2048 -> ram_index m a = Some (ram_at m a).
Proof.
  intros H Ha. unfold ram_index, ram_at.
  destruct (a <? 0) eqn:Hneg; [lia|].
  apply nth_error_nth'. rewrite (ram_ok_length m H). unfold RAM_SIZE. lia.
Qed.

(** ** Digit cells *)

Lemma digit_val_char (d : Z) :
  0 <= d <= 9 -> digit_val (digit_char d) = Some d.
Proof.
  intros H.
  assert (Hd : d = 0 \/ d = 1 \/ d = 2 \/ d = 3 \/ d = 4 \/
               d = 5 \/ d = 6 \/ d = 7 \/ d = 8 \/ d = 9) by lia.
  repeat (destruct Hd as [Hd | Hd]; [subst d; reflexivity|]).
  subst d; reflexivity.
Qed.

Lemma mod10_digit (x : Z) : 0 <= x mod 10 <= 9.
Proof. pose proof (Z.mod_pos_bound x 10 ltac:(lia)). lia. Qed.

Lemma int_digits_app (s1 s2 : string) (acc : Z) :
  int_digits (s1 ++ s2) acc = bind (int_digits s1 acc) (int_digits s2).
Proof.
  revert acc. induction s1 as [|c s1 IH]; intros acc; simpl.
  - reflexivity.
  - destruct (digit_val c); [apply IH | reflexivity].
Qed.

Lemma int_digits_str_uint8 (v acc : Z) :
  0 <= v < 256 ->
  int_digits (str_uint8 v) acc = Some (acc * 10 ^ str_width v + v).
Proof.
  intros Hv. unfold str_uint8, str_width. cbn [digits_of].
  destruct (v <? 10) eqn:H1.
  - apply Z.ltb_lt in H1. cbn [int_digits].
    rewrite digit_val_char by apply mod10_digit.
    f_equal. rewrite Z.mod_small by lia. change (10 ^ 1) with 10. lia.
  - apply Z.ltb_ge in H1.
    pose proof (Z.div_mod v 10 ltac:(lia)) as E1.
    pose proof (mod10_digit v) as B1.
    destruct (v / 10 <? 10) eqn:H2.
    + apply Z.ltb_lt in H2.
      replace (v <? 100) with true by (symmetry; apply Z.ltb_lt; lia).
      cbn [int_digits].
      rewrite !digit_val_char by apply mod10_digit.
      f_equal. rewrite (Z.mod_small (v / 10) 10) by lia.
      change (10 ^ 2) with 100. lia.
    + apply Z.ltb_ge in H2.
      replace (v <? 100) with false by (symmetry; apply Z.ltb_ge; lia).
      pose proof (Z.div_mod (v / 10) 10 ltac:(lia)) as E2.
      pose proof (mod10_digit (v / 10)) as B2.
      replace (v / 10 / 10 <? 10) with true by (symmetry; apply Z.ltb_lt; lia).
      cbn [int_digits].
      rewrite !digit_val_char by apply mod10_digit.
      f_equal. rewrite (Z.mod_small (v / 10 / 10) 10) by lia.
      change (10 ^ 3) with 1000. lia.
Qed.

Lemma str_uint8_not_empty (v : Z) : str_uint8 v <> EmptyString.
Proof.
  unfold str_uint8. simpl.
  destruct (v <? 10); [discriminate|].
  destruct (v / 10 <? 10); [discriminate|].
  destruct (v / 10 / 10 <? 10); discriminate.
Qed.

Lemma append_empty_r (s : string) : (s ++ EmptyString)%string = s.
Proof. induction s as [|c s IH]; simpl; [reflexivity | now rewrite IH]. Qed.

Lemma join_cons (s : string) (l : list string) :
  join (s :: l) = (s ++ join l)%string.
Proof.
  unfold join. destruct l as [|s' l]; simpl.
  - now rewrite append_empty_r.
  - reflexivity.
Qed.

Lemma int_digits_join (vs : list Z) (acc : Z) :
  Forall (fun v => 0 <= v < 256) vs ->
  int_digits (join (map str_uint8 vs)) acc =
  Some (fold_left (fun acc v => acc * 10 ^ str_width v + v) vs acc).
Proof.
  intros H. revert acc. induction H as [|v vs Hv _ IH]; intros acc.
  - reflexivity.
  - cbn [map]. rewrite join_cons, int_digits_app, int_digits_str_uint8 by exact Hv.
    cbn [bind fold_left]. apply IH.
Qed.

Lemma join_not_empty (v : Z) (vs : list Z) :
  join (map str_uint8 (v :: vs)) <> EmptyString.
Proof.
  cbn [map]. rewrite join_cons.
  pose proof (str_uint8_not_empty v) as H.
  destruct (str_uint8 v); [congruence | discriminate].
Qed.

(** The decoder never raises on a non-empty range of bytes. *)
Lemma read_mem_range_value (m : RAM) (a n : Z) :
  Forall (fun v => 0 <= v < 256) (ram_slice m a n) ->
  ram_slice m a n <> [] ->
  _read_mem_range m a n = Some (concat_value (ram_slice m a n)).
Proof.
  intros Hb Hne. unfold _read_mem_range, concat_value.
  destruct (ram_slice m a n) as [|v vs] eqn:E; [congruence|].
  unfold py_int.
  pose proof (join_not_empty v vs) as Hj.
  destruct (join (map str_uint8 (v :: vs))) eqn:Ej; [congruence|].
  rewrite <- Ej. now apply int_digits_join.
Qed.

Lemma concat_value_digits_from (ds : list Z) (acc : Z) :
  Forall (fun d => 0 <= d <= 9) ds ->
  fold_left (fun acc v => acc * 10 ^ str_width v + v) ds acc =
  fold_left (fun acc d => 10 * acc + d) ds acc.
Proof.
  intros H. revert acc. induction H as [|d ds Hd _ IH]; intros acc.
  - reflexivity.
  - cbn [fold_left]. rewrite IH. f_equal. unfold str_width.
    replace (d <? 10) with true by (symmetry; apply Z.ltb_lt; lia). lia.
Qed.

Lemma read_mem_range_ok (m : RAM) (a n : Z) :
  ram_ok m = true -> 0 <= a -> 0 < n -> a + n <= 2048 ->
  _read_mem_range m a n = Some (concat_value (ram_slice m a n)).
Proof.
  intros H Ha Hn Hb. apply read_mem_range_value.
  - now apply ram_slice_bytes.
  - intros E. pose proof (ram_slice_length m a n H Ha ltac:(lia) Hb) as L.
    rewrite E in L. simpl in L. lia.
Qed.

Lemma time_ok (m : RAM) :
  ram_ok m = true -> _time m = Some (concat_value (ram_slice m 0x07f8 3)).
Proof. intros H. unfold _time. apply read_mem_range_ok; [exact H|lia..]. Qed.

(** ** Digit-sequence decode *)

(** C3.  A non-empty run of cells that each hold one decimal digit decodes
    to the number those digits write in base ten, most significant digit
    first.  Cells [0,0,0,7,5,0] at the score address decode to 750 and
    cells [0,4,5] at the time address decode to 45. *)
Theorem read_mem_range_digits :
  (forall (m : RAM) (address length : Z) (cells : list Z),
      ram_slice m address length = cells ->
      cells <> [] ->
      Forall (fun c => 0 <= c <= 9) cells ->
      _read_mem_range m address length = Some (decimal_value cells))
  /\ (forall m : RAM,
         ram_slice m 0x07de 6 = [0; 0; 0; 7; 5; 0] -> _score m = Some 750)
  /\ (forall m : RAM,
         ram_slice m 0x07f8 3 = [0; 4; 5] -> _time m = Some 45).
Proof.
  assert (G : forall (m : RAM) (address length : Z) (cells : list Z),
             ram_slice m address length = cells ->
             cells <> [] ->
             Forall (fun c => 0 <= c <= 9) cells ->
             _read_mem_range m address length = Some (decimal_value cells)).
  { intros m address length cells E Hne Hd. subst cells.
    rewrite read_mem_range_value.
    - unfold concat_value, decimal_value. now rewrite concat_value_digits_from.
    - eapply Forall_impl; [|exact Hd]. cbv beta. intros; lia.
    - exact Hne. }
  split; [exact G|]. split; intros m E.
  - unfold _score. rewrite (G m _ _ _ E); [reflexivity | discriminate |].
    repeat constructor; lia.
  - unfold _time. rewrite (G m _ _ _ E); [reflexivity | discriminate |].
    repeat constructor; lia.
Qed.

Lemma read_mem_range_digits_witness :
  ram_slice score_ram 0x07de 6 = [0; 0; 0; 7; 5; 0] /\
  _score score_ram = Some 750.
Proof.
  split.
  - vm_compute. reflexivity.
  - apply (proj1 (proj2 read_mem_range_digits) score_ram).
    vm_compute. reflexivity.
Defined.

(** C4, as the specification states it, fails: a cell holding 12 is not
    rejected, its two digits are spliced into the number. *)
Lemma read_mem_range_wide_cell :
  In 12 (ram_slice wide_cell_ram 0x07f8 3) /\
  _read_mem_range wide_cell_ram 0x07f8 3 = Some 125 /\
  _read_mem_range wide_cell_ram 0x07f8 3 <> None.
Proof.
  split; [|split].
  - vm_compute. auto.
  - vm_compute. reflexivity.
  - vm_compute. discriminate.
Qed.

Lemma string_length_app (s1 s2 : string) :
  String.length (s1 ++ s2) = (String.length s1 + String.length s2)%nat.
Proof.
  induction s1 as [|c s1 IH]; cbn [append String.length]; [reflexivity|].
  now rewrite IH.
Qed.

Lemma str_uint8_length (v : Z) : (String.length (str_uint8 v) <= 3)%nat.
Proof.
  unfold str_uint8. cbn [digits_of].
  destruct (v <? 10); [cbn; lia|].
  destruct (v / 10 <? 10); [cbn; lia|].
  destruct (v / 10 / 10 <? 10); cbn; lia.
Qed.

Lemma join_length (vs : list Z) :
  (String.length (join (map str_uint8 vs)) <= 3 * List.length vs)%nat.
Proof.
  induction vs as [|v vs IH]; [cbn; lia|].
  cbn [map]. rewrite join_cons, string_length_app.
  pose proof (str_uint8_length v). cbn [List.length]. lia.
Qed.

(** C4, amended.  On a memory image the decode of a non-empty range of
    at most 1433 cells that lies inside the RAM never raises, whatever
    the cells hold: the string handed to [int] has at most
    [int_max_str_digits] digits, and the result is the number written
    by the decimal renderings of the cells put one after the other, a
    cell from 10 to 255 contributing two or three digits. *)
Theorem read_mem_range_total (m : RAM) (address length : Z) :
  ram_ok m = true ->
  0 <= address -> 0 < length -> address + length <= 2048 ->
  length <= 1433 ->
  (String.length (join (map str_uint8 (ram_slice m address length)))
   <= int_max_str_digits)%nat
  /\ _read_mem_range m address length =
     Some (concat_value (ram_slice m address length)).
Proof.
  intros H A N B C. split.
  - pose proof (join_length (ram_slice m address length)) as J.
    rewrite (ram_slice_length m address length H A ltac:(lia) B) in J.
    unfold int_max_str_digits. lia.
  - now apply read_mem_range_ok.
Qed.

Lemma read_mem_range_total_witness :
  ram_ok wide_cell_ram = true /\
  _read_mem_range wide_cell_ram 0x07f8 3 =
  Some (concat_value (ram_slice wide_cell_ram 0x07f8 3)).
Proof.
  split.
  - vm_compute. reflexivity.
  - apply (read_mem_range_total wide_cell_ram 0x07f8 3);
      [vm_compute; reflexivity|lia..].
Defined.

(** ** Vertical position *)

(** C5.  The exposed vertical position is [255 + (255 - y_pixel)] when
    the viewport register is below 1 and [255 - y_pixel] otherwise; a
    viewport of 1 with a pixel row of 200 gives 55, a viewport of 0 with
    the same row gives 310. *)
Theorem y_position_rule (m : RAM) :
  (_y_viewport m < 1 -> _y_position m = 255 + (255 - _y_pixel m))
  /\ (1 <= _y_viewport m -> _y_position m = 255 - _y_pixel m)
  /\ (_y_viewport m = 1 -> _y_pixel m = 200 -> _y_position m = 55)
  /\ (_y_viewport m = 0 -> _y_pixel m = 200 -> _y_position m = 310).
Proof.
  unfold _y_position. repeat split.
  - intros H. apply Z.ltb_lt in H. now rewrite H.
  - intros H. apply Z.ltb_ge in H. now rewrite H.
  - intros Hv Hp. rewrite Hv, Hp. reflexivity.
  - intros Hv Hp. rewrite Hv, Hp. reflexivity.
Qed.

Lemma y_position_rule_witness :
  (_y_viewport above_ram = 0 /\ _y_pixel above_ram = 200 /\
   _y_position above_ram = 310)
  /\ (_y_viewport visible_ram = 1 /\ _y_pixel visible_ram = 200 /\
      _y_position visible_ram = 55).
Proof.
  split; (split; [vm_compute; reflexivity|]); (split; [vm_compute; reflexivity|]).
  - apply (proj2 (proj2 (proj2 (y_position_rule above_ram)))); vm_compute; reflexivity.
  - apply (proj1 (proj2 (proj2 (y_position_rule visible_ram)))); vm_compute; reflexivity.
Defined.

(** ** Stage completion *)

Lemma stage_over_scan (m : RAM) :
  np_any (np_isin (map (ram_at m) _ENEMY_TYPE_ADDRESSES) _STAGE_OVER_ENEMIES) = true
  <-> exists a, In a _ENEMY_TYPE_ADDRESSES /\ (ram_at m a = 0x2D \/ ram_at m a = 0x31).
Proof.
  unfold np_any, np_isin. rewrite existsb_exists. split.
  - intros [b [Hin Hb]]. subst b. apply in_map_iff in Hin.
    destruct Hin as [v [Hv Hin]]. apply in_map_iff in Hin.
    destruct Hin as [a [Ha Hin]]. subst v. exists a. split; [exact Hin|].
    cbv beta in Hv. apply existsb_exists in Hv. destruct Hv as [s [Hs Heq]].
    apply Z.eqb_eq in Heq. simpl in Hs. intuition congruence.
  - intros [a [Hin Hv]]. exists true. split; [|reflexivity].
    apply in_map_iff. exists (ram_at m a). split.
    + apply existsb_exists. destruct Hv as [Hv | Hv]; rewrite Hv.
      * exists 0x2D. split; [simpl; auto | apply Z.eqb_refl].
      * exists 0x31. split; [simpl; auto | apply Z.eqb_refl].
    + now apply in_map.
Qed.

(** C6.  [_is_stage_over] holds exactly when one of the five enemy-type
    slots holds the Bowser byte 0x2D or the flagpole byte 0x31 and the
    float-state register is 3.  With slots that hold neither byte, a vine
    for instance, it is false even though the register is 3. *)
Theorem is_stage_over_iff (m : RAM) :
  (_is_stage_over m = true <->
     (exists a, In a _ENEMY_TYPE_ADDRESSES /\
                (ram_at m a = 0x2D \/ ram_at m a = 0x31)) /\
     ram_at m 0x001D = 3)
  /\ List.length _ENEMY_TYPE_ADDRESSES = 5%nat
  /\ ((forall a, In a _ENEMY_TYPE_ADDRESSES ->
                 ram_at m a <> 0x2D /\ ram_at m a <> 0x31) ->
      ram_at m 0x001D = 3 -> _is_stage_over m = false).
Proof.
  pose proof (stage_over_scan m) as S. unfold _is_stage_over.
  destruct (np_any _) eqn:E.
  - split; [|split].
    + rewrite Z.eqb_eq. split.
      * intros H. split; [now apply S | exact H].
      * intros [_ H]. exact H.
    + reflexivity.
    + intros Hno _. destruct (proj1 S eq_refl) as [a [Hin Hv]].
      destruct (Hno a Hin) as [H1 H2]. tauto.
  - split; [|split].
    + split; [discriminate|]. intros [Hex _].
      apply S in Hex. discriminate.
    + reflexivity.
    + reflexivity.
Qed.

Lemma is_stage_over_iff_witness :
  ((exists a, In a _ENEMY_TYPE_ADDRESSES /\
              (ram_at flagpole_ram a = 0x2D \/ ram_at flagpole_ram a = 0x31)) /\
   ram_at flagpole_ram 0x001D = 3)
  /\ _is_stage_over flagpole_ram = true
  /\ (forall a, In a _ENEMY_TYPE_ADDRESSES -> ram_at vine_ram a <> 0x2D /\ ram_at vine_ram a <> 0x31)
  /\ ram_at vine_ram 0x001D = 3
  /\ _is_stage_over vine_ram = false.
Proof.
  assert (F : (exists a, In a _ENEMY_TYPE_ADDRESSES /\
              (ram_at flagpole_ram a = 0x2D \/ ram_at flagpole_ram a = 0x31)) /\
              ram_at flagpole_ram 0x001D = 3).
  { split; [|vm_compute; reflexivity].
    exists 0x0018. split; [simpl; auto | right; vm_compute; reflexivity]. }
  assert (V : forall a, In a _ENEMY_TYPE_ADDRESSES ->
                        ram_at vine_ram a <> 0x2D /\ ram_at vine_ram a <> 0x31).
  { intros a Ha. simpl in Ha.
    repeat (destruct Ha as [Ha | Ha]; [subst a; split; vm_compute; discriminate|]).
    contradiction. }
  split; [exact F|]. split.
  - apply (proj2 (proj1 (is_stage_over_iff flagpole_ram)) F).
  - split; [exact V|]. split; [vm_compute; reflexivity|].
    apply (proj2 (proj2 (is_stage_over_iff vine_ram)) V). vm_compute. reflexivity.
Defined.

(** ** Episode termination *)

(** C7.  In single-stage mode the episode is over when Mario is dying or
    dead or the flag was reached; otherwise it is over when the game is,
    that is when the life counter reads 0xFF.  A player state of 0x06
    means dead and, in single-stage mode, ends the episode. *)
Theorem get_done_rule (e : Env) :
  (is_single_stage_env e = true ->
   _get_done e = _is_dying (ram e) || _is_dead (ram e) || _flag_get (ram e))
  /\ (is_single_stage_env e = false -> _get_done e = _is_game_over (ram e))
  /\ (_is_game_over (ram e) = true <-> _life (ram e) = 0xFF)
  /\ (_player_state (ram e) = 0x06 ->
      _is_dead (ram e) = true /\
      (is_single_stage_env e = true -> _get_done e = true)).
Proof.
  unfold _get_done. split; [|split; [|split]].
  - intros H. now rewrite H.
  - intros H. now rewrite H.
  - unfold _is_game_over. apply Z.eqb_eq.
  - intros H. assert (D : _is_dead (ram e) = true).
    { unfold _is_dead. rewrite H. reflexivity. }
    split; [exact D|]. intros S. rewrite S, D.
    now rewrite orb_true_r.
Qed.

Lemma get_done_rule_witness :
  _player_state (ram dead_env) = 0x06 /\
  is_single_stage_env dead_env = true /\
  _is_dead (ram dead_env) = true /\
  _get_done dead_env = true.
Proof.
  assert (P : _player_state (ram dead_env) = 0x06) by (vm_compute; reflexivity).
  assert (S : is_single_stage_env dead_env = true) by reflexivity.
  pose proof (proj2 (proj2 (proj2 (get_done_rule dead_env))) P) as [D G].
  split; [exact P|]. split; [exact S|]. split; [exact D|]. exact (G S).
Defined.

(** ** Reward *)

(** C2.  On a memory image the clock term of the reward is -5000 when
    the decoded time is 0 and 5 when it is not; the previous-time
    attribute has no influence, the difference computed from it being
    overwritten by 0 before it is tested. *)
Theorem time_penalty_rule (e : Env) :
  ram_ok (ram e) = true ->
  exists t,
    _time (ram e) = Some t
    /\ (t = 0 -> _time_penalty e = Some (-5000))
    /\ (t <> 0 -> _time_penalty e = Some 5)
    /\ (forall last, _time_penalty (set_time_last e last) = _time_penalty e).
Proof.
  intros H. exists (concat_value (ram_slice (ram e) 0x07f8 3)).
  pose proof (time_ok (ram e) H) as T.
  split; [exact T|]. unfold _time_penalty. cbn [set_time_last ram].
  rewrite T. cbn [bind]. split; [|split].
  - intros E. rewrite E. reflexivity.
  - intros N. apply Z.eqb_neq in N. rewrite N. reflexivity.
  - reflexivity.
Qed.

Lemma time_penalty_rule_witness :
  ram_ok (ram flag_env) = true /\
  exists t,
    _time (ram flag_env) = Some t
    /\ (t = 0 -> _time_penalty flag_env = Some (-5000))
    /\ (t <> 0 -> _time_penalty flag_env = Some 5)
    /\ (forall last, _time_penalty (set_time_last flag_env last) = _time_penalty flag_env).
Proof.
  split.
  - vm_compute. reflexivity.
  - apply (time_penalty_rule flag_env). vm_compute. reflexivity.
Defined.

Lemma time_penalty_value (e : Env) :
  ram_ok (ram e) = true ->
  exists t, _time (ram e) = Some t /\
            _time_penalty e = Some (if t =? 0 then -5000 else 5).
Proof.
  intros H. exists (concat_value (ram_slice (ram e) 0x07f8 3)).
  pose proof (time_ok (ram e) H) as T. split; [exact T|].
  unfold _time_penalty. rewrite T. cbn [bind].
  destruct (_ =? 0); reflexivity.
Qed.

(** C1.  On a memory image [_get_reward] returns the sum of the position
    term, the death term and the clock term, plus 1000000 counted once
    when the flag was reached.  The position term is -10 when the
    horizontal position equals the remembered one and 0 otherwise, and
    the computation leaves the current position in the remembered one;
    the death term is -5000 when Mario is dying or dead and 0 otherwise. *)
Theorem get_reward_formula (e : Env) :
  ram_ok (ram e) = true ->
  let xTerm := if _x_position (ram e) - _x_position_last e =? 0 then -10 else 0 in
  let deathTerm := if _is_dying (ram e) || _is_dead (ram e) then -5000 else 0 in
  let bonus := if _flag_get (ram e) then 1000000 else 0 in
  exists timeTerm e',
    _time_penalty e = Some timeTerm
    /\ _get_reward e = Some (xTerm + deathTerm + timeTerm + bonus, e')
    /\ _x_position_last e' = _x_position (ram e)
    /\ r e' = xTerm + deathTerm + timeTerm + bonus
    /\ ram e' = ram e
    /\ _time_last e' = _time_last e.
Proof.
  intros H xTerm deathTerm bonus.
  destruct (time_penalty_value e H) as [t [T P]].
  exists (if t =? 0 then -5000 else 5).
  unfold _get_reward, _x_reward.
  set (e1 := set_x_position_last e (_x_position (ram e))).
  assert (P1 : _time_penalty e1 = Some (if t =? 0 then -5000 else 5)) by exact P.
  assert (D1 : _death_penalty e1 = deathTerm) by reflexivity.
  subst xTerm bonus.
  destruct (_x_position (ram e) - _x_position_last e =? 0);
    rewrite P1, D1; cbn [bind set_r ram r];
    change (ram e1) with (ram e);
    destruct (_flag_get (ram e)); cbn [set_r ram r _x_position_last _time_last];
    eexists; (split; [exact P|]);
    (split; [f_equal; f_equal; lia|]); cbn; repeat split; lia.
Qed.

Lemma get_reward_formula_witness :
  ram_ok (ram flag_env) = true /\
  exists e', _get_reward flag_env = Some (999995, e') /\
             _x_position_last e' = _x_position (ram flag_env).
Proof.
  split.
  - vm_compute. reflexivity.
  - destruct (get_reward_formula flag_env) as [tp [e' [P [G [X _]]]]].
    + vm_compute. reflexivity.
    + exists e'. split; [|exact X].
      rewrite G. f_equal. f_equal.
      assert (E : tp = 5) by (vm_compute in P; congruence).
      rewrite E. vm_compute. reflexivity.
Defined.

(** ** Tile lookup *)

Lemma get_tile_type_cases (m : RAM) (box_x box_y : Z) :
  ram_ok m = true ->
  let sub_y := (box_y + 96 - 32) / 16 in
  exists v reads,
    _get_tile_type m box_x box_y = Some (v, reads)
    /\ (v = 0 \/ v = 1)
    /\ (0 <= sub_y < 13 ->
        exists a, reads = [a] /\ 0x500 <= a <= 0x69F /\
                  v = if ram_at m a =? 0 then 0 else 1)
    /\ (~ 0 <= sub_y < 13 -> reads = [] /\ v = 0).
Proof.
  intros H sub_y. unfold _get_tile_type.
  set (local_x := _x_position m - _left_x_position m + box_x + 112).
  fold sub_y.
  destruct ((sub_y >=? 13) || (sub_y <? 0)) eqn:G.
  - exists 0, []. split; [reflexivity|]. split; [now left|].
    apply orb_true_iff in G. split.
    + intros B. destruct G as [G | G]; lia.
    + intros _. split; reflexivity.
  - apply orb_false_iff in G. destruct G as [G1 G2].
    assert (B : 0 <= sub_y < 13) by lia.
    set (a := addr_tiles + (local_x / 256) mod 2 * 13 * 16 + sub_y * 16
              + local_x mod 256 / 16).
    assert (Ha : 0x500 <= a <= 0x69F).
    { pose proof (Z.mod_pos_bound (local_x / 256) 2 ltac:(lia)) as P.
      pose proof (Z.mod_pos_bound local_x 256 ltac:(lia)) as Q.
      assert (0 <= local_x mod 256 / 16 < 16).
      { split; [apply Z.div_pos; lia | apply Z.div_lt_upper_bound; lia]. }
      subst a. unfold addr_tiles. lia. }
    rewrite (ram_index_in_range m a H) by lia. cbn [bind].
    destruct (ram_at m a =? 0) eqn:V; cbn [negb].
    + exists 0, [a]. split; [reflexivity|]. split; [now left|]. split.
      * intros _. exists a. rewrite V. auto.
      * intros N. contradiction.
    + exists 1, [a]. split; [reflexivity|]. split; [now right|]. split.
      * intros _. exists a. rewrite V. auto.
      * intros N. contradiction.
Qed.

Lemma py_range_rows :
  py_range (-4 * 16) (8 * 16) 16 =
  [-64; -48; -32; -16; 0; 16; 32; 48; 64; 80; 96; 112].
Proof. reflexivity. Qed.

Lemma py_range_columns :
  py_range (-7 * 16) (8 * 16) 16 =
  [-112; -96; -80; -64; -48; -32; -16; 0; 16; 32; 48; 64; 80; 96; 112].
Proof. reflexivity. Qed.

(** C10.  On a memory image [_get_tile_type] returns for all offsets
    that fit 32 bits, and returns 0 or 1.  It reads the tile table only
    when the row index
    [sub_y] lies in 0..12, the test on [sub_y] coming first; the address
    read then lies in [0x500, 0x500 + 2*13*16), that is 0x500..0x69F.  For
    the offsets the grid builder samples the row index is always in
    range, so exactly one cell of the table is read. *)
Theorem get_tile_type_safe (m : RAM) (box_x box_y : Z) :
  ram_ok m = true ->
  small_offset box_x -> small_offset box_y ->
  let sub_y := (box_y + 96 - 32) / 16 in
  exists v reads,
    _get_tile_type m box_x box_y = Some (v, reads)
    /\ (v = 0 \/ v = 1)
    /\ (reads <> [] -> 0 <= sub_y < 13)
    /\ Forall (fun a => addr_tiles <= a < addr_tiles + 2 * 13 * 16
                        /\ 0x500 <= a <= 0x69F) reads
    /\ (In box_x (py_range (-7 * 16) (8 * 16) 16) ->
        In box_y (py_range (-4 * 16) (8 * 16) 16) ->
        exists a, reads = [a]).
Proof.
  intros H _ _ sub_y.
  destruct (get_tile_type_cases m box_x box_y H) as [v [reads [E [V [In_ Out]]]]].
  fold sub_y in In_, Out.
  exists v, reads. split; [exact E|]. split; [exact V|].
  assert (D : 0 <= sub_y < 13 \/ ~ 0 <= sub_y < 13) by lia.
  split; [|split].
  - intros N. destruct D as [D | D]; [exact D|].
    destruct (Out D) as [R _]. contradiction.
  - destruct D as [D | D].
    + destruct (In_ D) as [a [R [A _]]]. rewrite R.
      constructor; [|constructor]. unfold addr_tiles. lia.
    + destruct (Out D) as [R _]. rewrite R. constructor.
  - intros _ Hy. rewrite py_range_rows in Hy.
    assert (D' : 0 <= sub_y < 13).
    { subst sub_y. simpl in Hy.
      repeat (destruct Hy as [Hy | Hy]; [subst box_y; vm_compute; split; congruence|]).
      contradiction. }
    destruct (In_ D') as [a [R _]]. now exists a.
Qed.

Lemma get_tile_type_safe_witness :
  ram_ok overlap_ram = true /\ small_offset 16 /\ small_offset 96 /\
  exists v reads,
    _get_tile_type overlap_ram 16 96 = Some (v, reads)
    /\ (v = 0 \/ v = 1)
    /\ (reads <> [] -> 0 <= (96 + 96 - 32) / 16 < 13)
    /\ Forall (fun a => addr_tiles <= a < addr_tiles + 2 * 13 * 16
                        /\ 0x500 <= a <= 0x69F) reads
    /\ (In 16 (py_range (-7 * 16) (8 * 16) 16) ->
        In 96 (py_range (-4 * 16) (8 * 16) 16) ->
        exists a, reads = [a]).
Proof.
  assert (X : small_offset 16) by (unfold small_offset; lia).
  assert (Y : small_offset 96) by (unfold small_offset; lia).
  split; [vm_compute; reflexivity|]. split; [exact X|]. split; [exact Y|].
  apply (get_tile_type_safe overlap_ram 16 96); [vm_compute; reflexivity | exact X | exact Y].
Defined.

(** ** Tile grid *)

Lemma map_opt_spec {A B : Type} (f : A -> option B) (P : B -> Prop) (l : list A) :
  (forall a, In a l -> exists b, f a = Some b /\ P b) ->
  exists l', map_opt f l = Some l'
             /\ List.length l' = List.length l
             /\ Forall P l'.
Proof.
  induction l as [|a l IH]; intros H.
  - exists []. repeat split. constructor.
  - destruct (H a (or_introl eq_refl)) as [b [Eb Pb]].
    destruct IH as [l' [El [Ll Fl]]].
    { intros a' Ha'. apply H. now right. }
    exists (b :: l'). cbn [map_opt]. rewrite Eb, El. cbn [bind].
    split; [reflexivity|]. split; [simpl; now rewrite Ll | now constructor].
Qed.

Lemma map_opt_nth {A B : Type} (f : A -> option B) (l : list A) (l' : list B)
    (i : nat) (a : A) :
  map_opt f l = Some l' ->
  nth_error l i = Some a ->
  exists b, nth_error l' i = Some b /\ f a = Some b.
Proof.
  revert l' i. induction l as [|x l IH]; intros l' i E N.
  - destruct i; discriminate.
  - cbn [map_opt] in E. destruct (f x) as [b|] eqn:Eb; [|discriminate].
    cbn [bind] in E. destruct (map_opt f l) as [bs|] eqn:Ebs; [|discriminate].
    cbn [bind] in E. injection E as <-.
    destruct i as [|i]; cbn [nth_error] in *.
    + injection N as <-. now exists b.
    + now apply (IH bs i).
Qed.

Lemma enemy_pass_value (f : Enemy -> bool) (enemies : list Enemy) (v0 : Z) :
  let v := fold_left (fun tile_value i => if f i then 2 else tile_value) enemies v0 in
  v = v0 \/ v = 2.
Proof.
  revert v0. induction enemies as [|i enemies IH]; intros v0; cbn.
  - now left.
  - destruct (f i).
    + destruct (IH 2) as [E | E]; right; exact E.
    + apply IH.
Qed.

Lemma tile_cell_value (m : RAM) (enemies : list Enemy) (left_x y_viewport box_y box_x : Z) :
  ram_ok m = true ->
  exists v, tile_cell m enemies left_x y_viewport box_y box_x = Some v
            /\ (v = 0 \/ v = 1 \/ v = 2 \/ v = 3).
Proof.
  intros H. unfold tile_cell.
  destruct (get_tile_type_cases m box_x box_y H) as [t [reads [E _]]].
  rewrite E. cbn [bind fst].
  eexists. split; [reflexivity|].
  destruct (_ && _ && _); [tauto|].
  match goal with
  | |- context [fold_left (fun tv i => if @?c i then 2 else tv) ?es ?v0] =>
      destruct (enemy_pass_value c es v0) as [Ev | Ev]; cbv beta in Ev; rewrite Ev
  end.
  - destruct (_ && _); tauto.
  - tauto.
Qed.

(** The player test comes last and decides alone. *)
Lemma tile_cell_player (m : RAM) (enemies : list Enemy) (left_x box_y box_x : Z) :
  ram_ok m = true ->
  Z.abs (_x_position m - (_x_position m + box_x - left_x + 108)) <= 8 ->
  Z.abs (_y_pixel m - (80 + box_y)) <= 8 ->
  tile_cell m enemies left_x 1 box_y box_x = Some 3.
Proof.
  intros H Hx Hy. unfold tile_cell.
  destruct (get_tile_type_cases m box_x box_y H) as [t [reads [E _]]].
  rewrite E. cbn [bind fst].
  apply Z.leb_le in Hx, Hy. rewrite Hx, Hy. reflexivity.
Qed.

Lemma get_tiles_only_ram (e e' : Env) :
  ram e' = ram e -> _get_tiles e' = _get_tiles e.
Proof. intros E. unfold _get_tiles. now rewrite E. Qed.

(** C8.  On a memory image the tile grid has 12 rows of 15 cells, each
    0, 1, 2 or 3.  It is a function of the memory alone: nothing is kept
    from one call to the next.  In the visible viewport a cell within 8
    pixels of the player on both axes is 3 whatever the enemies are, the
    player test being made after the enemy test: in the example image
    an enemy and the player share the cell of row 10 and column 8, which
    reads 3, and reads 2 once the player is out of the viewport. *)
Theorem get_tiles_grid :
  (forall e : Env,
      ram_ok (ram e) = true ->
      exists grid,
        _get_tiles e = Some grid
        /\ List.length grid = 12%nat
        /\ Forall (fun row => List.length row = 15%nat
                              /\ Forall (fun v => v = 0 \/ v = 1 \/ v = 2 \/ v = 3) row)
                  grid
        /\ (forall e' : Env, ram e' = ram e -> _get_tiles e' = Some grid)
        /\ (forall (i j : nat) (box_y box_x : Z),
               nth_error (py_range (-4 * 16) (8 * 16) 16) i = Some box_y ->
               nth_error (py_range (-7 * 16) (8 * 16) 16) j = Some box_x ->
               _y_viewport (ram e) = 1 ->
               Z.abs (_x_position (ram e)
                      - (_x_position (ram e) + box_x - _left_x_position (ram e) + 108)) <= 8 ->
               Z.abs (_y_pixel (ram e) - (80 + box_y)) <= 8 ->
               grid_at grid i j = Some 3))
  /\ (exists grid, _get_tiles overlap_env = Some grid /\ grid_at grid 10 8 = Some 3)
  /\ (exists grid, _get_tiles overlap_hidden_env = Some grid /\ grid_at grid 10 8 = Some 2).
Proof.
  split; [|split].
  - intros e H.
    set (cell := tile_cell (ram e) (_get_enemies (ram e)) (_left_x_position (ram e))
                           (_y_viewport (ram e))).
    set (row := fun box_y => map_opt (cell box_y) (py_range (-7 * 16) (8 * 16) 16)).
    destruct (map_opt_spec row
                (fun l => List.length l = 15%nat
                          /\ Forall (fun v => v = 0 \/ v = 1 \/ v = 2 \/ v = 3) l)
                (py_range (-4 * 16) (8 * 16) 16)) as [grid [G [L F]]].
    { intros box_y _. subst row. cbv beta.
      destruct (map_opt_spec (cell box_y)
                  (fun v => v = 0 \/ v = 1 \/ v = 2 \/ v = 3)
                  (py_range (-7 * 16) (8 * 16) 16)) as [l [El [Ll Fl]]].
      - intros box_x _. apply tile_cell_value. exact H.
      - exists l. split; [exact El|]. split; [|exact Fl].
        rewrite Ll, py_range_columns. reflexivity. }
    assert (G' : _get_tiles e = Some grid) by exact G.
    exists grid. split; [exact G'|]. split.
    { rewrite L, py_range_rows. reflexivity. }
    split; [exact F|]. split.
    { intros e' E. now rewrite (get_tiles_only_ram e e' E). }
    intros i j box_y box_x Ni Nj V Hx Hy.
    destruct (map_opt_nth row _ grid i box_y G Ni) as [l [Nl Rl]].
    subst row. cbv beta in Rl.
    destruct (map_opt_nth (cell box_y) _ l j box_x Rl Nj) as [v [Nv Cv]].
    unfold grid_at. rewrite Nl. cbn [bind]. rewrite Nv. f_equal.
    subst cell. cbv beta in Cv. rewrite V in Cv.
    rewrite (tile_cell_player (ram e) _ _ box_y box_x H Hx Hy) in Cv.
    congruence.
  - eexists. split; vm_compute; reflexivity.
  - eexists. split; vm_compute; reflexivity.
Qed.

Lemma get_tiles_grid_witness :
  ram_ok (ram overlap_env) = true /\
  exists grid,
    _get_tiles overlap_env = Some grid
    /\ List.length grid = 12%nat
    /\ Forall (fun row => List.length row = 15%nat
                          /\ Forall (fun v => v = 0 \/ v = 1 \/ v = 2 \/ v = 3) row)
              grid
    /\ grid_at grid 10 8 = Some 3.
Proof.
  assert (H : ram_ok (ram overlap_env) = true) by (vm_compute; reflexivity).
  split; [exact H|].
  destruct (proj1 get_tiles_grid overlap_env H) as [grid [G [L [F [_ P]]]]].
  exists grid. split; [exact G|]. split; [exact L|]. split; [exact F|].
  apply (P 10%nat 8%nat 96 16); vm_compute; try reflexivity; discriminate.
Defined.

(** ** Loops *)

Section WhileLoop.

Context {St : Type}.
Variable cond : St -> option bool.
Variable body : St -> option St.

Lemma while_loop_run (fuel : nat) (s s' : St) :
  while_loop fuel cond body s = Some s' ->
  exists n, (n < fuel)%nat
            /\ iterate n body s = Some s'
            /\ cond s' = Some false
            /\ forall k, (k < n)%nat ->
                 exists sk, iterate k body s = Some sk /\ cond sk = Some true.
Proof.
  revert s. induction fuel as [|fuel IH]; intros s W; [discriminate|].
  cbn [while_loop] in W.
  destruct (cond s) as [[|]|] eqn:C; cbn [bind] in W; [| |discriminate].
  - destruct (body s) as [s1|] eqn:B; cbn [bind] in W; [|discriminate].
    destruct (IH s1 W) as [n [Ln [I [F P]]]].
    exists (S n). split; [lia|]. split.
    { cbn [iterate]. rewrite B. exact I. }
    split; [exact F|]. intros k Lk. destruct k as [|k].
    + exists s. split; [reflexivity | exact C].
    + destruct (P k ltac:(lia)) as [sk [Ik Ck]].
      exists sk. split; [|exact Ck]. cbn [iterate]. rewrite B. exact Ik.
  - injection W as <-. exists O. split; [lia|]. split; [reflexivity|].
    split; [exact C|]. intros k Lk. lia.
Qed.

Lemma while_loop_enough (n : nat) (s s' : St) :
  iterate n body s = Some s' ->
  cond s' = Some false ->
  (forall k, (k < n)%nat ->
     exists sk, iterate k body s = Some sk /\ cond sk = Some true) ->
  forall fuel, (n < fuel)%nat -> while_loop fuel cond body s = Some s'.
Proof.
  revert s. induction n as [|n IH]; intros s I F P fuel L.
  - injection I as <-. destruct fuel as [|fuel]; [lia|].
    cbn [while_loop]. rewrite F. reflexivity.
  - destruct fuel as [|fuel]; [lia|]. cbn [while_loop].
    destruct (P O ltac:(lia)) as [s0 [I0 C0]]. injection I0 as <-.
    rewrite C0. cbn [bind]. cbn [iterate] in I.
    destruct (body s) as [s1|] eqn:B; [|discriminate]. cbn [bind] in *.
    apply IH; [exact I | exact F | | lia].
    intros k Lk. destruct (P (S k) ltac:(lia)) as [sk [Ik Ck]].
    cbn [iterate] in Ik. rewrite B in Ik. now exists sk.
Qed.

End WhileLoop.

(** ** Start-screen skip *)

Section StartScreen.

Context {E : Emulator}.

Lemma same_target_events (e e' : Env) :
  same_target e e' -> start_events e' = start_events e.
Proof.
  intros [W [St A]]. unfold start_events, stage_stores, is_single_stage_env.
  now rewrite W, St, A.
Qed.

Lemma extends_refl (s s' : Session E) :
  trace s' = trace s -> same_target (env s) (env s') -> extends [] s s'.
Proof. intros T M. split; [now rewrite app_nil_r | exact M]. Qed.

Lemma extends_trans (evs1 evs2 : list Event) (s1 s2 s3 : Session E) :
  extends evs1 s1 s2 -> extends evs2 s2 s3 -> extends (evs1 ++ evs2) s1 s3.
Proof.
  intros [T1 [W1 [St1 A1]]] [T2 [W2 [St2 A2]]]. split.
  - rewrite T2, T1. now rewrite app_assoc.
  - repeat split; congruence.
Qed.

Lemma frame_advance_extends (action : Z) (s : Session E) :
  extends [EvFrame action] s (_frame_advance action s).
Proof.
  unfold extends, _frame_advance.
  destruct (frame E action (core s, ram (env s))) as [c m].
  split; [reflexivity | now repeat split].
Qed.

Lemma store_extends (address value : Z) (s : Session E) :
  extends [EvStore address (to_uint8 value)] s (store address value s).
Proof. split; [reflexivity | now repeat split]. Qed.

Lemma write_stage_extends (s s' : Session E) :
  _write_stage s = Some s' -> extends (stage_stores (env s)) s s'.
Proof.
  unfold _write_stage, stage_stores. intros W.
  destruct (_target_world (env s)) as [w|]; [|discriminate].
  cbn [bind] in W. cbn [store env set_ram _target_stage _target_area] in W.
  destruct (_target_stage (env s)) as [st|]; [|discriminate].
  cbn [bind] in W.
  destruct (_target_area (env s)) as [a|]; [|discriminate].
  cbn [bind] in W. injection W as <-.
  apply (extends_trans [_] [_; _] s (store 0x075f (w - 1) s));
    [apply store_extends|].
  apply (extends_trans [_] [_] _ (store 0x075c (st - 1) (store 0x075f (w - 1) s)));
    apply store_extends.
Qed.

Lemma start_body_extends (s s' : Session E) :
  start_body s = Some s' -> extends (start_events (env s)) s s'.
Proof.
  unfold start_body. intros B.
  pose proof (frame_advance_extends 8 s) as F8.
  set (s1 := _frame_advance 8 s) in *.
  assert (M : same_target (env s) (env s1)) by apply F8.
  unfold start_events.
  replace (is_single_stage_env (env s)) with (is_single_stage_env (env s1))
    by (destruct M as [W [_ A]]; unfold is_single_stage_env; now rewrite W, A).
  replace (stage_stores (env s)) with (stage_stores (env s1))
    by (destruct M as [W [St A]]; unfold stage_stores; now rewrite W, St, A).
  apply (extends_trans _ _ s s1); [exact F8|].
  destruct (is_single_stage_env (env s1)).
  - destruct (_write_stage s1) as [s2|] eqn:W; [|discriminate].
    cbn [bind] in B. injection B as <-.
    apply (extends_trans _ _ s1 s2); [now apply write_stage_extends|].
    apply (extends_trans [_] [_] s2 (_frame_advance 0 s2));
      [apply frame_advance_extends|].
    apply (store_extends 0x07A0 0).
  - cbn [bind] in B. injection B as <-. cbn [app].
    apply (extends_trans [_] [_] s1 (_frame_advance 0 s1));
      [apply frame_advance_extends|].
    apply (store_extends 0x07A0 0).
Qed.

Lemma idle_body_extends (s s' : Session E) :
  idle_body s = Some s' -> extends idle_events s s'.
Proof.
  unfold idle_body. intros B.
  destruct (_time (ram (env s))) as [t|]; [|discriminate].
  cbn [bind] in B. injection B as <-.
  set (s1 := with_env s (set_time_last (env s) t)).
  apply (extends_trans [] idle_events s s1).
  - apply extends_refl; [reflexivity | now repeat split].
  - apply (extends_trans [_] [_] s1 (_frame_advance 8 s1));
      apply frame_advance_extends.
Qed.

Lemma iterate_extends (body : Session E -> option (Session E))
    (evs : Env -> list Event) (n : nat) :
  (forall e e', same_target e e' -> evs e' = evs e) ->
  (forall s s', body s = Some s' -> extends (evs (env s)) s s') ->
  forall s s', iterate n body s = Some s' ->
               extends (repeat_events n (evs (env s))) s s'.
Proof.
  intros He Hb. induction n as [|n IH]; intros s s' I.
  - injection I as <-. apply extends_refl; [reflexivity | now repeat split].
  - cbn [iterate] in I. destruct (body s) as [s1|] eqn:B; [|discriminate].
    cbn [bind] in I. cbn [repeat_events].
    pose proof (Hb s s1 B) as X1. pose proof (IH s1 s' I) as X2.
    rewrite (He (env s) (env s1) (proj2 X1)) in X2.
    exact (extends_trans _ _ s s1 s' X1 X2).
Qed.

Lemma iterate_snoc {St : Type} (body : St -> option St) (k : nat) (s s' : St) :
  iterate (S k) body s = Some s' ->
  exists sk, iterate k body s = Some sk /\ body sk = Some s'.
Proof.
  revert s. induction k as [|k IH]; intros s I.
  - cbn [iterate] in I. destruct (body s) as [s1|] eqn:B; [|discriminate].
    cbn [bind] in I. injection I as <-. exists s. now split.
  - change (iterate (S (S k)) body s)
      with (bind (body s) (iterate (S k) body)) in I.
    destruct (body s) as [s1|] eqn:B; [|discriminate]. cbn [bind] in I.
    destruct (IH s1 I) as [sk [Ik Bk]]. exists sk. split; [|exact Bk].
    cbn [iterate]. rewrite B. exact Ik.
Qed.

Lemma frame_advance_console (action : Z) (s : Session E) :
  console (_frame_advance action s) = frame E action (console s)
  /\ _time_last (env (_frame_advance action s)) = _time_last (env s).
Proof.
  unfold _frame_advance, console.
  destruct (frame E action (core s, ram (env s))) as [c m]. now split.
Qed.

(** One pass of the second loop remembers the time it was entered with
    and hands the console one press and release. *)
Lemma idle_body_console (s s' : Session E) :
  idle_body s = Some s' ->
  exists t, _time (ram (env s)) = Some t
            /\ console s' = press_release (console s)
            /\ _time_last (env s') = t.
Proof.
  unfold idle_body. intros B.
  destruct (_time (ram (env s))) as [t|] eqn:T; [|discriminate].
  cbn [bind] in B. injection B as <-. exists t. split; [reflexivity|].
  set (s1 := with_env s (set_time_last (env s) t)).
  destruct (frame_advance_console 8 s1) as [C8 L8].
  destruct (frame_advance_console 0 (_frame_advance 8 s1)) as [C0 L0].
  split.
  - rewrite C0, C8. reflexivity.
  - rewrite L0, L8. reflexivity.
Qed.

Lemma iterate_idle_console (k : nat) (s sk : Session E) :
  iterate k idle_body s = Some sk ->
  console sk = Nat.iter k press_release (console s).
Proof.
  revert s. induction k as [|k IH]; intros s I.
  - injection I as <-. reflexivity.
  - cbn [iterate] in I. destruct (idle_body s) as [s1|] eqn:B; [|discriminate].
    cbn [bind] in I. rewrite (IH s1 I).
    destruct (idle_body_console s s1 B) as [t [_ [C _]]].
    rewrite C. symmetry. apply Nat.iter_succ_r.
Qed.

Lemma skip_start_screen_sound (fuel : nat) (s s' : Session E) :
  _skip_start_screen fuel s = Some s' ->
  exists n m, (n < fuel)%nat /\ (m < fuel)%nat /\ skip_run s s' n m.
Proof.
  unfold _skip_start_screen. intros R.
  set (s0 := _frame_advance 0 (_frame_advance 8 s)) in *.
  destruct (while_loop fuel start_cond start_body s0) as [s1|] eqn:W1;
    [|discriminate].
  cbn [bind] in R.
  destruct (_time (ram (env s1))) as [t1|] eqn:T1; [|discriminate].
  cbn [bind] in R.
  apply while_loop_run in W1. destruct W1 as [n [Ln [I1 [C1 P1]]]].
  apply while_loop_run in R. destruct R as [m [Lm [I2 [C2 P2]]]].
  exists n, m. split; [exact Ln|]. split; [exact Lm|].
  unfold skip_run. fold s0. exists s1, t1.
  split; [exact I1|]. split.
  { intros k Lk. destruct (P1 k Lk) as [sk [Ik Ck]].
    exists sk. split; [exact Ik|]. unfold start_cond in Ck.
    destruct (_time (ram (env sk))) as [t|]; [|discriminate].
    cbn [bind] in Ck. injection Ck as Ck. apply Z.eqb_eq in Ck. now subst t. }
  split; [first [exact T1 | reflexivity]|]. split.
  { unfold start_cond in C1. rewrite T1 in C1. cbn [bind] in C1.
    injection C1 as C1. now apply Z.eqb_neq in C1. }
  split; [exact I2|]. split.
  { intros k Lk. destruct (P2 k Lk) as [sk [Ik Ck]].
    unfold idle_cond in Ck.
    destruct (_time (ram (env sk))) as [t|] eqn:Tk; [|discriminate].
    cbn [bind] in Ck. injection Ck as Ck.
    exists sk, t. split; [exact Ik|]. split; [first [exact Tk | reflexivity]|]. lia. }
  split.
  { unfold idle_cond in C2.
    destruct (_time (ram (env s'))) as [t|] eqn:T'; [|discriminate].
    cbn [bind] in C2. injection C2 as C2. exists t. split; [first [exact T' | reflexivity]|]. lia. }
  pose proof (extends_trans _ _ _ _ _ (frame_advance_extends 8 s)
                (frame_advance_extends 0 (_frame_advance 8 s))) as X0.
  fold s0 in X0.
  pose proof (iterate_extends start_body start_events n same_target_events
                start_body_extends s0 s1 I1) as X1.
  pose proof (iterate_extends idle_body (fun _ => idle_events) m
                (fun _ _ _ => eq_refl)
                (fun a b => idle_body_extends a b) _ s' I2) as X2.
  cbv beta in X2.
  assert (Xm : extends [] s1 (with_env s1 (set_time_last (env s1) t1)))
    by (apply extends_refl; [reflexivity | now repeat split]).
  rewrite (same_target_events (env s) (env s0) (proj2 X0)) in X1.
  pose proof (extends_trans _ _ _ _ _ X0
                (extends_trans _ _ _ _ _ X1
                   (extends_trans _ _ _ _ _ Xm X2))) as X.
  split; [destruct X as [X _]; rewrite X; cbn [app]; reflexivity|].
  clear X X0 X1 X2 Xm.
  set (init := with_env s1 (set_time_last (env s1) t1)) in *.
  assert (Ci : console init = console s1) by reflexivity.
  assert (M : m <> O).
  { intros ->. cbn [iterate] in I2. injection I2 as <-.
    unfold idle_cond in C2.
    change (ram (env init)) with (ram (env s1)) in C2.
    change (_time_last (env init)) with t1 in C2.
    rewrite T1 in C2. cbn [bind] in C2. injection C2 as C2. lia. }
  split; [lia|]. split.
  { rewrite <- Ci. now apply iterate_idle_console. }
  intros k Lk.
  destruct (P2 k Lk) as [sk [Ik Ck]].
  pose proof (iterate_idle_console k init sk Ik) as Kk. rewrite Ci in Kk.
  unfold idle_cond in Ck.
  destruct (_time (ram (env sk))) as [t|] eqn:Tk; [|discriminate]. clear Ck.
  assert (N : exists sn,
             iterate (S k) idle_body init = Some sn
             /\ idle_cond sn = Some (S k <? m)%nat
             /\ (S k = m -> sn = s')).
  { destruct (Nat.eq_dec (S k) m) as [Q | Q].
    - exists s'. rewrite Q. split; [exact I2|]. split; [|reflexivity].
      rewrite Nat.ltb_irrefl. exact C2.
    - destruct (P2 (S k) ltac:(lia)) as [sn [In Cn]]. exists sn.
      split; [exact In|]. split; [|intros; lia].
      replace (S k <? m)%nat with true by (symmetry; apply Nat.ltb_lt; lia).
      exact Cn. }
  destruct N as [sn [In [Cn Qn]]].
  destruct (iterate_snoc idle_body k init sn In) as [sk' [Ik' Bk]].
  assert (sk' = sk) by congruence. subst sk'.
  destruct (idle_body_console sk sn Bk) as [t0 [T0 [Cs Ls]]].
  assert (Et : t0 = t) by congruence. rewrite Et in Ls. clear Et T0.
  unfold idle_cond in Cn.
  destruct (_time (ram (env sn))) as [t'|] eqn:Tn; [|discriminate].
  cbn [bind] in Cn. injection Cn as Cn.
  exists t, t'. split.
  { unfold clock_after. rewrite <- Kk. exact Tk. }
  split.
  { unfold clock_after. rewrite Nat.iter_succ, <- Kk, <- Cs. exact Tn. }
  split.
  - intros Lt. apply Nat.ltb_lt in Lt. rewrite Lt in Cn. rewrite Ls in Cn. lia.
  - intros Q. rewrite <- (Qn Q). rewrite Q, Nat.ltb_irrefl in Cn.
    rewrite Ls in Cn. split; [lia | exact Ls].
Qed.

Lemma skip_start_screen_complete (s s' : Session E) (n m : nat) :
  skip_run s s' n m ->
  forall fuel, (n < fuel)%nat -> (m < fuel)%nat ->
               _skip_start_screen fuel s = Some s'.
Proof.
  unfold skip_run. intros [s1 [t1 [I1 [P1 [T1 [N1 [I2 [P2 [[t [T' L']] _]]]]]]]]].
  intros fuel Ln Lm. unfold _skip_start_screen.
  rewrite (while_loop_enough start_cond start_body n _ s1 I1).
  - cbn [bind]. rewrite T1. cbn [bind].
    apply (while_loop_enough idle_cond idle_body m _ s' I2).
    + unfold idle_cond. rewrite T'. cbn [bind]. f_equal. lia.
    + intros k Lk. destruct (P2 k Lk) as [sk [tk [Ik [Tk Gk]]]].
      exists sk. split; [exact Ik|]. unfold idle_cond. rewrite Tk.
      cbn [bind]. f_equal. lia.
    + exact Lm.
  - unfold start_cond. rewrite T1. cbn [bind]. f_equal.
    now apply Z.eqb_neq.
  - intros k Lk. destruct (P1 k Lk) as [sk [Ik Tk]].
    exists sk. split; [exact Ik|]. unfold start_cond. now rewrite Tk.
  - exact Ln.
Qed.

End StartScreen.

(** C9, as the specification states it, fails in its second half.  On
    the example console the clock stays at 400 over the first pass of
    the second loop and the loop goes on; the next pass brings it to 399
    and the procedure returns at once, although the clock has just
    decreased and keeps decreasing afterwards. *)
Lemma skip_start_screen_returns_on_decrease :
  exists s',
    _skip_start_screen 3 (demo_session None) = Some s'
    /\ trace s' = [EvFrame 8; EvFrame 0;
                   EvFrame 8; EvFrame 0; EvStore 0x07A0 0;
                   EvFrame 8; EvFrame 0; EvFrame 8; EvFrame 0]
    /\ _time_last (env s') = 400
    /\ _time (ram (env s')) = Some 399
    /\ ~ (exists t, _time (ram (env s')) = Some t /\ t >= _time_last (env s'))
    /\ _time (ram (env (_frame_advance 0 (_frame_advance 8
               (_frame_advance 0 (_frame_advance 8 s')))))) = Some 398.
Proof.
  destruct (_skip_start_screen 3 (demo_session None)) as [s'|] eqn:R;
    [|vm_compute in R; discriminate].
  exists s'. split; [reflexivity|].
  vm_compute in R. injection R as <-.
  split; [reflexivity|]. split; [reflexivity|].
  split; [vm_compute; reflexivity|]. split.
  - intros [t [T G]]. vm_compute in T. injection T as <-.
    cbn [env _time_last] in G. lia.
  - vm_compute. reflexivity.
Qed.

(** C9, amended.  [_skip_start_screen] returns exactly on the runs that
    press and release start once, then repeat the first loop while the
    time reads 0, each pass pressing start, writing the target stage when
    the environment is pinned to one, releasing start and zeroing the
    pre-level timer, until the time is not 0; and then repeat pressing
    and releasing start while the time is not below the value remembered
    at the previous test, returning as soon as the time reads strictly
    less than that value.  The value remembered is the time read at the
    previous test: the second loop makes at least one pass, goes on as
    long as the time after a press and release is not below the time
    before it, and returns after the first press and release that
    lowers the time, with the time before it in [_time_last]. *)
Theorem skip_start_screen_runs (E : Emulator) (s s' : Session E) :
  (exists fuel, _skip_start_screen fuel s = Some s')
  <-> (exists n m, skip_run s s' n m).
Proof.
  split.
  - intros [fuel R]. destruct (skip_start_screen_sound fuel s s' R) as [n [m [_ [_ X]]]].
    now exists n, m.
  - intros [n [m X]]. exists (S (Nat.max n m)).
    apply (skip_start_screen_complete s s' n m X); lia.
Qed.

Lemma skip_start_screen_runs_witness :
  exists s',
    _skip_start_screen 3 (demo_session (Some 1)) = Some s'
    /\ exists n m, skip_run (demo_session (Some 1)) s' n m.
Proof.
  destruct (_skip_start_screen 3 (demo_session (Some 1))) as [s'|] eqn:R;
    [|vm_compute in R; discriminate].
  exists s'. split; [reflexivity|].
  apply (proj1 (skip_start_screen_runs demo_console (demo_session (Some 1)) s')).
  now exists 3%nat.
Defined.

(** * Further properties *)

(** ** Stores into the work RAM *)

Lemma list_set_length (l : list Z) (n : nat) (v : Z) :
  List.length (list_set l n v) = List.length l.
Proof.
  revert n. induction l as [|h t IH]; intros n; [reflexivity|].
  destruct n as [|n]; cbn [list_set List.length]; [reflexivity | now rewrite IH].
Qed.

Lemma list_set_nth_same (l : list Z) (n : nat) (v d : Z) :
  (n < List.length l)%nat -> nth n (list_set l n v) d = v.
Proof.
  revert n. induction l as [|h t IH]; intros n L; cbn [List.length] in L; [lia|].
  destruct n as [|n]; cbn [list_set nth]; [reflexivity | apply IH; lia].
Qed.

Lemma list_set_nth_other (l : list Z) (n n' : nat) (v d : Z) :
  n <> n' -> nth n' (list_set l n v) d = nth n' l d.
Proof.
  revert n n'. induction l as [|h t IH]; intros n n' N; [reflexivity|].
  destruct n as [|n], n' as [|n']; cbn [list_set nth]; try reflexivity.
  - congruence.
  - apply IH. congruence.
Qed.

Lemma list_set_Forall (P : Z -> Prop) (l : list Z) (n : nat) (v : Z) :
  Forall P l -> P v -> Forall P (list_set l n v).
Proof.
  intros F Pv. revert n. induction F as [|h t Ph Ft IH]; intros n.
  - destruct n; cbn [list_set]; constructor.
  - destruct n as [|n]; cbn [list_set]; constructor; auto.
Qed.

Lemma ram_ok_intro (m : RAM) :
  List.length m = RAM_SIZE -> Forall (fun v => 0 <= v < 256) m -> ram_ok m = true.
Proof.
  intros L F. unfold ram_ok. apply andb_true_intro. split.
  - now apply Nat.eqb_eq.
  - apply forallb_forall. rewrite Forall_forall in F. intros v Hv.
    specialize (F v Hv). unfold is_uint8. lia.
Qed.

Lemma ram_set_ok (m : RAM) (a v : Z) :
  ram_ok m = true -> 0 <= v < 256 -> ram_ok (ram_set m a v) = true.
Proof.
  intros H Hv. apply ram_ok_intro; unfold ram_set.
  - rewrite list_set_length. now apply ram_ok_length.
  - apply list_set_Forall; [now apply ram_ok_bytes | exact Hv].
Qed.

Lemma ram_at_set_same (m : RAM) (a v : Z) :
  ram_ok m = true -> 0 <= a < 2048 -> ram_at (ram_set m a v) a = v.
Proof.
  intros H Ha. unfold ram_at, ram_set. apply list_set_nth_same.
  rewrite (ram_ok_length m H). unfold RAM_SIZE. lia.
Qed.

Lemma ram_at_set_other (m : RAM) (a a' v : Z) :
  0 <= a -> 0 <= a' -> a <> a' -> ram_at (ram_set m a v) a' = ram_at m a'.
Proof.
  intros Ha Ha' N. unfold ram_at, ram_set. apply list_set_nth_other. lia.
Qed.

Lemma to_uint8_byte (v : Z) : 0 <= to_uint8 v < 256.
Proof. unfold to_uint8. apply Z.mod_pos_bound. lia. Qed.

(** ** Positions *)

(** X1.  On a memory image the horizontal position lies in 0..65535, the
    distance from the left of the screen in 0..255 and the vertical
    position in 0..510, at most 255 from the visible viewport downwards
    and at least 255 above it.  The position minus the distance from
    the left of the screen is the world coordinate of the left edge: its
    low byte is the scroll register 0x071c. *)
Theorem position_bounds (m : RAM) :
  ram_ok m = true ->
  0 <= _x_position m <= 65535
  /\ 0 <= _left_x_position m <= 255
  /\ 0 <= _y_position m <= 510
  /\ (1 <= _y_viewport m -> _y_position m <= 255)
  /\ (_y_viewport m = 0 -> 255 <= _y_position m)
  /\ _x_position_lol m = _x_position m + 20
  /\ (_x_position m - _left_x_position m) mod 256 = ram_at m 0x071c.
Proof.
  intros H.
  pose proof (ram_at_byte m 0x6d H) as B1.
  pose proof (ram_at_byte m 0x86 H) as B2.
  pose proof (ram_at_byte m 0x071c H) as B3.
  pose proof (ram_at_byte m 0x03b8 H) as B4.
  pose proof (ram_at_byte m 0x00b5 H) as B5.
  unfold _x_position, _left_x_position, _y_position, _x_position_lol,
    _y_viewport, _y_pixel.
  rewrite Z.mod_mod by lia.
  pose proof (Z.mod_pos_bound (ram_at m 0x86 - ram_at m 0x071c) 256 ltac:(lia)) as B6.
  split; [lia|]. split; [lia|]. split.
  { destruct (ram_at m 0x00b5 <? 1); lia. }
  split.
  { intros V. replace (ram_at m 0x00b5 <? 1) with false
      by (symmetry; apply Z.ltb_ge; lia). lia. }
  split.
  { intros V. rewrite V. change (0 <? 1) with true. cbv iota. lia. }
  split; [reflexivity|].
  pose proof (Z.div_mod (ram_at m 0x86 - ram_at m 0x071c) 256 ltac:(lia)) as D.
  set (q := (ram_at m 0x86 - ram_at m 0x071c) / 256) in *.
  set (rm := (ram_at m 0x86 - ram_at m 0x071c) mod 256) in *.
  replace (ram_at m 0x6d * 0x100 + ram_at m 0x86 - rm)
    with (ram_at m 0x071c + (ram_at m 0x6d + q) * 256) by lia.
  rewrite Z.mod_add by lia. apply Z.mod_small. lia.
Qed.

Lemma position_bounds_witness :
  ram_ok overlap_ram = true
  /\ 0 <= _x_position overlap_ram <= 65535
  /\ (_x_position overlap_ram - _left_x_position overlap_ram) mod 256
     = ram_at overlap_ram 0x071c.
Proof.
  assert (H : ram_ok overlap_ram = true) by (vm_compute; reflexivity).
  split; [exact H|].
  pose proof (position_bounds overlap_ram H) as [X [_ [_ [_ [_ [_ S]]]]]].
  split; [exact X | exact S].
Defined.

(** ** Level, world and stage *)

(** X2.  The level number packs world and stage: it is
    [4 * (world - 1) + (stage - 1)].  As long as the stage is one of the
    four of a world, both are recovered from the level by division by 4. *)
Theorem level_world_stage (m : RAM) :
  ram_ok m = true ->
  _level m = 4 * (_world m - 1) + (_stage m - 1)
  /\ 1 <= _world m <= 256
  /\ 1 <= _stage m <= 256
  /\ 1 <= _area m <= 256
  /\ (_stage m <= 4 ->
      _world m = _level m / 4 + 1 /\ _stage m = _level m mod 4 + 1).
Proof.
  intros H.
  pose proof (ram_at_byte m 0x075f H) as B1.
  pose proof (ram_at_byte m 0x075c H) as B2.
  pose proof (ram_at_byte m 0x0760 H) as B3.
  unfold _level, _world, _stage, _area.
  split; [lia|]. split; [lia|]. split; [lia|]. split; [lia|].
  intros S.
  assert (E : ram_at m 0x075f * 4 + ram_at m 0x075c
              = ram_at m 0x075c + ram_at m 0x075f * 4) by lia.
  rewrite E. rewrite Z.div_add, Z.mod_add by lia.
  rewrite Z.div_small, Z.mod_small by lia. lia.
Qed.

Lemma level_world_stage_witness :
  ram_ok stage_ram = true /\ _stage stage_ram <= 4
  /\ _level stage_ram = 9 /\ _world stage_ram = 9 / 4 + 1
  /\ _stage stage_ram = 9 mod 4 + 1.
Proof.
  assert (H : ram_ok stage_ram = true) by (vm_compute; reflexivity).
  assert (S : _stage stage_ram <= 4) by (vm_compute; discriminate).
  pose proof (level_world_stage stage_ram H) as [L [_ [_ [_ R]]]].
  destruct (R S) as [W St].
  assert (L9 : _level stage_ram = 9) by (vm_compute; reflexivity).
  rewrite L9 in W, St. repeat split; assumption.
Defined.

(** ** Writing the target stage *)

Lemma stage_fields_written (m : RAM) (w st a : Z) :
  ram_ok m = true ->
  let m' := ram_set (ram_set (ram_set m 0x075f (to_uint8 (w - 1)))
                             0x075c (to_uint8 (st - 1)))
                    0x0760 (to_uint8 (a - 1)) in
  ram_ok m' = true
  /\ ram_at m' 0x075f = to_uint8 (w - 1)
  /\ ram_at m' 0x075c = to_uint8 (st - 1)
  /\ ram_at m' 0x0760 = to_uint8 (a - 1)
  /\ (forall addr, 0 <= addr -> addr <> 0x075f -> addr <> 0x075c ->
                   addr <> 0x0760 -> ram_at m' addr = ram_at m addr).
Proof.
  intros H m'.
  pose proof (ram_set_ok m 0x075f _ H (to_uint8_byte (w - 1))) as H1.
  pose proof (ram_set_ok _ 0x075c _ H1 (to_uint8_byte (st - 1))) as H2.
  pose proof (ram_set_ok _ 0x0760 _ H2 (to_uint8_byte (a - 1))) as H3.
  split; [exact H3|]. subst m'. split; [|split; [|split]].
  - rewrite !ram_at_set_other by lia. apply ram_at_set_same; [exact H | lia].
  - rewrite ram_at_set_other by lia. apply ram_at_set_same; [exact H1 | lia].
  - apply ram_at_set_same; [exact H2 | lia].
  - intros addr A N1 N2 N3. now rewrite !ram_at_set_other by lia.
Qed.

(** X3.  [_write_stage] raises exactly when a component of the target is
    missing.  With a target whose components lie in 1..256 it succeeds
    on a memory image, runs no frame, and afterwards the decoded world,
    stage and area are the target; no other cell has changed. *)
Theorem write_stage_read_back (E : Emulator) (s : Session E) :
  (_write_stage s = None <->
   _target_world (env s) = None \/ _target_stage (env s) = None
   \/ _target_area (env s) = None)
  /\ (forall w st a,
        ram_ok (ram (env s)) = true ->
        _target_world (env s) = Some w ->
        _target_stage (env s) = Some st ->
        _target_area (env s) = Some a ->
        1 <= w <= 256 -> 1 <= st <= 256 -> 1 <= a <= 256 ->
        exists s',
          _write_stage s = Some s'
          /\ _world (ram (env s')) = w
          /\ _stage (ram (env s')) = st
          /\ _area (ram (env s')) = a
          /\ ram_ok (ram (env s')) = true
          /\ core s' = core s
          /\ (forall addr, 0 <= addr -> addr <> 0x075f -> addr <> 0x075c ->
                addr <> 0x0760 ->
                ram_at (ram (env s')) addr = ram_at (ram (env s)) addr)).
Proof.
  split.
  - unfold _write_stage.
    destruct (_target_world (env s)) as [w|] eqn:W; cbn [bind];
      [|split; [auto | reflexivity]].
    cbn [store env set_ram _target_stage _target_area].
    destruct (_target_stage (env s)) as [st|] eqn:St; cbn [bind];
      [|split; [auto | reflexivity]].
    destruct (_target_area (env s)) as [a|] eqn:A; cbn [bind];
      [|split; [auto | reflexivity]].
    split; [discriminate|]. intros [X | [X | X]]; discriminate.
  - intros w st a H W St A Bw Bs Ba.
    unfold _write_stage. rewrite W. cbn [bind].
    cbn [store env set_ram _target_stage _target_area].
    rewrite St. cbn [bind]. rewrite A. cbn [bind].
    eexists. split; [reflexivity|]. cbn [store env core set_ram ram].
    destruct (stage_fields_written (ram (env s)) w st a H) as [O [R1 [R2 [R3 R4]]]].
    unfold _world, _stage, _area. rewrite R1, R2, R3.
    split; [unfold to_uint8; rewrite Z.mod_small by lia; lia|].
    split; [unfold to_uint8; rewrite Z.mod_small by lia; lia|].
    split; [unfold to_uint8; rewrite Z.mod_small by lia; lia|].
    split; [exact O|]. split; [reflexivity | exact R4].
Qed.

Lemma write_stage_read_back_witness :
  exists s',
    _write_stage (demo_session (Some 3)) = Some s'
    /\ _world (ram (env s')) = 3
    /\ _stage (ram (env s')) = 3
    /\ _area (ram (env s')) = 3.
Proof.
  destruct (proj2 (write_stage_read_back demo_console (demo_session (Some 3)))
              3 3 3) as [s' [W [R1 [R2 [R3 _]]]]];
    try reflexivity; try lia.
  exists s'. repeat split; assumption.
Defined.

(** ** Change-area timer *)

(** X4.  After [_skip_change_area] the change-area timer 0x06DE reads 0,
    1 or 255: a running timer is cut to 1, a timer at rest is left
    alone.  No frame is run, no other cell is written, the image stays
    a memory image, and a second call changes nothing. *)
Theorem skip_change_area_effect (E : Emulator) (s : Session E) :
  ram_ok (ram (env s)) = true ->
  let s' := _skip_change_area s in
  let t := ram_at (ram (env s)) 0x06DE in
  let t' := ram_at (ram (env s')) 0x06DE in
  (t' = 0 \/ t' = 1 \/ t' = 255)
  /\ (1 < t < 255 -> t' = 1)
  /\ (t <= 1 \/ t = 255 -> s' = s)
  /\ ram_ok (ram (env s')) = true
  /\ core s' = core s
  /\ (forall addr, 0 <= addr -> addr <> 0x06DE ->
        ram_at (ram (env s')) addr = ram_at (ram (env s)) addr)
  /\ _skip_change_area s' = s'.
Proof.
  intros H s' t t'.
  pose proof (ram_at_byte (ram (env s)) 0x06DE H) as B. fold t in B.
  assert (S1 : ram_at (ram_set (ram (env s)) 0x06DE (to_uint8 1)) 0x06DE = 1).
  { rewrite ram_at_set_same by (auto; lia). reflexivity. }
  subst s' t'. unfold _skip_change_area. fold t.
  destruct ((t >? 1) && (t <? 255)) eqn:C.
  - apply andb_prop in C. destruct C as [C1 C2].
    cbn [store env core set_ram ram]. rewrite S1.
    split; [auto|]. split; [auto|]. split; [lia|]. split.
    { apply ram_set_ok; [exact H | apply to_uint8_byte]. }
    split; [reflexivity|]. split.
    { intros addr A N. now rewrite ram_at_set_other by lia. }
    reflexivity.
  - apply andb_false_iff in C.
    split; [lia|]. split; [lia|]. split; [reflexivity|].
    split; [exact H|]. split; [reflexivity|]. split; [reflexivity|].
    fold t. replace ((t >? 1) && (t <? 255)) with false; [reflexivity|].
    symmetry. apply andb_false_iff. exact C.
Qed.

Lemma skip_change_area_effect_witness :
  ram_ok (ram (env pipe_session)) = true
  /\ 1 < ram_at (ram (env pipe_session)) 0x06DE < 255
  /\ ram_at (ram (env (_skip_change_area pipe_session))) 0x06DE = 1.
Proof.
  assert (H : ram_ok (ram (env pipe_session)) = true) by (vm_compute; reflexivity).
  assert (T : 1 < ram_at (ram (env pipe_session)) 0x06DE < 255)
    by (vm_compute; split; reflexivity).
  split; [exact H|]. split; [exact T|].
  exact (proj1 (proj2 (skip_change_area_effect demo_console pipe_session H)) T).
Defined.

(** ** Enemies *)

(** X5.  [_get_enemies] looks at four slots only and lists the active
    ones: there are at most four enemies, none exactly when the four
    flags 0x0F..0x12 are zero, and on a memory image every enemy has its
    horizontal position in 0..65535 and its vertical one in 0..255. *)
Theorem get_enemies_bounds (m : RAM) :
  (List.length (_get_enemies m) <= 4)%nat
  /\ (_get_enemies m = [] <->
      ram_at m 0x0F = 0 /\ ram_at m 0x10 = 0 /\ ram_at m 0x11 = 0
      /\ ram_at m 0x12 = 0)
  /\ (ram_ok m = true ->
      Forall (fun i => 0 <= enemy_x i <= 65535 /\ 0 <= enemy_y i <= 255)
             (_get_enemies m)).
Proof.
  unfold _get_enemies.
  change (py_range 0 4 1) with [0; 1; 2; 3]. cbn [flat_map].
  change (0xF + 0) with 0x0F. change (0xF + 1) with 0x10.
  change (0xF + 2) with 0x11. change (0xF + 3) with 0x12.
  split; [|split].
  - destruct (ram_at m 0x0F =? 0), (ram_at m 0x10 =? 0),
      (ram_at m 0x11 =? 0), (ram_at m 0x12 =? 0); cbn; lia.
  - destruct (ram_at m 0x0F =? 0) eqn:E0, (ram_at m 0x10 =? 0) eqn:E1,
      (ram_at m 0x11 =? 0) eqn:E2, (ram_at m 0x12 =? 0) eqn:E3;
      cbn [negb app];
      repeat match goal with
             | X : (_ =? 0) = true |- _ => apply Z.eqb_eq in X
             | X : (_ =? 0) = false |- _ => apply Z.eqb_neq in X
             end;
      (split; [intros X; try discriminate X; tauto | intros X; try reflexivity; exfalso; tauto]).
  - intros H. apply Forall_forall. intros i Hi.
    repeat (apply in_app_or in Hi; destruct Hi as [Hi | Hi]).
    all: try (now destruct Hi).
    all: match type of Hi with
         | In _ (if ?c then _ else _) => destruct c; cbn [In] in Hi
         end;
      try contradiction; destruct Hi as [<- | []]; cbn [enemy_x enemy_y];
      match goal with
      | |- 0 <= ram_at ?m0 ?p * 256 + ram_at _ ?x <= _ /\ 0 <= ram_at _ ?y <= _ =>
          pose proof (ram_at_byte m0 p H);
          pose proof (ram_at_byte m0 x H);
          pose proof (ram_at_byte m0 y H); lia
      end.
Qed.

Lemma get_enemies_bounds_witness :
  ram_ok overlap_ram = true
  /\ Forall (fun i => 0 <= enemy_x i <= 65535 /\ 0 <= enemy_y i <= 255)
            (_get_enemies overlap_ram)
  /\ List.length (_get_enemies overlap_ram) = 1%nat.
Proof.
  assert (H : ram_ok overlap_ram = true) by (vm_compute; reflexivity).
  split; [exact H|]. split.
  - exact (proj2 (proj2 (get_enemies_bounds overlap_ram)) H).
  - vm_compute. reflexivity.
Defined.

(** ** Score, time and coins *)

Lemma concat_value_nonneg (vs : list Z) (acc : Z) :
  Forall (fun v => 0 <= v < 256) vs -> 0 <= acc ->
  0 <= fold_left (fun acc v => acc * 10 ^ str_width v + v) vs acc.
Proof.
  intros F. revert acc. induction F as [|v vs Hv _ IH]; intros acc A.
  - exact A.
  - cbn [fold_left]. apply IH.
    assert (0 <= 10 ^ str_width v) by (apply Z.pow_nonneg; lia).
    nia.
Qed.

Lemma decimal_value_bound (ds : list Z) (acc : Z) :
  Forall (fun d => 0 <= d <= 9) ds -> 0 <= acc ->
  fold_left (fun acc d => 10 * acc + d) ds acc
  <= (acc + 1) * 10 ^ Z.of_nat (List.length ds) - 1.
Proof.
  intros F. revert acc. induction F as [|d ds Hd _ IH]; intros acc A.
  - cbn. lia.
  - cbn [fold_left List.length]. rewrite Nat2Z.inj_succ, Z.pow_succ_r by lia.
    specialize (IH (10 * acc + d) ltac:(lia)).
    assert (0 <= 10 ^ Z.of_nat (List.length ds)) by (apply Z.pow_nonneg; lia).
    nia.
Qed.

Lemma read_mem_range_bounds (m : RAM) (a n : Z) :
  ram_ok m = true -> 0 <= a -> 0 < n -> a + n <= 2048 ->
  exists v, _read_mem_range m a n = Some v
            /\ 0 <= v
            /\ (Forall (fun d => 0 <= d <= 9) (ram_slice m a n) -> v <= 10 ^ n - 1).
Proof.
  intros H A N B. exists (concat_value (ram_slice m a n)).
  split; [now apply read_mem_range_ok|]. split.
  - apply concat_value_nonneg; [now apply ram_slice_bytes | lia].
  - intros D. unfold concat_value. rewrite concat_value_digits_from by exact D.
    pose proof (decimal_value_bound _ 0 D ltac:(lia)) as U.
    rewrite (ram_slice_length m a n H A ltac:(lia) B) in U.
    rewrite Z2Nat.id in U by lia. lia.
Qed.

(** X6.  On a memory image score, time and coins always decode, to
    numbers that are never negative.  When the cells of a counter hold
    digits the score is at most 999999, the time at most 999 and the
    coins at most 99. *)
Theorem hud_counters_range (m : RAM) :
  ram_ok m = true ->
  exists sc t c,
    _score m = Some sc /\ _time m = Some t /\ _coins m = Some c
    /\ 0 <= sc /\ 0 <= t /\ 0 <= c
    /\ (Forall (fun d => 0 <= d <= 9) (ram_slice m 0x07de 6) -> sc <= 999999)
    /\ (Forall (fun d => 0 <= d <= 9) (ram_slice m 0x07f8 3) -> t <= 999)
    /\ (Forall (fun d => 0 <= d <= 9) (ram_slice m 0x07ed 2) -> c <= 99).
Proof.
  intros H.
  destruct (read_mem_range_bounds m 0x07de 6 H) as [sc [E1 [P1 U1]]]; try lia.
  destruct (read_mem_range_bounds m 0x07f8 3 H) as [t [E2 [P2 U2]]]; try lia.
  destruct (read_mem_range_bounds m 0x07ed 2 H) as [c [E3 [P3 U3]]]; try lia.
  exists sc, t, c.
  split; [exact E1|]. split; [exact E2|]. split; [exact E3|].
  split; [exact P1|]. split; [exact P2|]. split; [exact P3|].
  split; [exact U1|]. split; [exact U2 | exact U3].
Qed.

Lemma hud_counters_range_witness :
  ram_ok score_ram = true
  /\ Forall (fun d => 0 <= d <= 9) (ram_slice score_ram 0x07de 6)
  /\ exists sc, _score score_ram = Some sc /\ 0 <= sc <= 999999.
Proof.
  assert (H : ram_ok score_ram = true) by (vm_compute; reflexivity).
  assert (D : Forall (fun d => 0 <= d <= 9) (ram_slice score_ram 0x07de 6)).
  { change (ram_slice score_ram 0x07de 6) with [0; 0; 0; 7; 5; 0].
    repeat constructor; lia. }
  split; [exact H|]. split; [exact D|].
  destruct (hud_counters_range score_ram H) as [sc [t [c [E [_ [_ [P [_ [_ [U _]]]]]]]]]].
  exists sc. split; [exact E|]. split; [exact P | exact (U D)].
Defined.

(** ** Player status *)

Lemma dict_get_app (d : StatusMap) (k k' : Z) (v : string) :
  dict_get (d ++ [(k, v)]) k' =
  match dict_get d k' with
  | Some x => Some x
  | None => if k =? k' then Some v else None
  end.
Proof.
  induction d as [|[k0 v0] d IH]; cbn [app dict_get]; [reflexivity|].
  destruct (k0 =? k'); [reflexivity | exact IH].
Qed.

(** X7.  Whatever lookups were made before, the player status is
    ['small'] for a status register of 0, ['tall'] for 1 and
    ['fireball'] for every other value.  A lookup only ever adds the
    key it was asked for, bound to ['fireball']; it leaves the map as
    it is when the key is there, so the two initial entries stay. *)
Theorem player_status_lookup (d : StatusMap) (m : RAM) :
  status_map_ok d ->
  let k := ram_at m 0x0756 in
  let d' := snd (_player_status d m) in
  fst (_player_status d m) = status_name k
  /\ status_map_ok d'
  /\ dict_get d' k = Some (status_name k)
  /\ (forall k', dict_get d k' <> None -> dict_get d' k' = dict_get d k')
  /\ (dict_get d k <> None -> d' = d).
Proof.
  intros [S0 [S1 Sk]] k d'. subst d'. unfold _player_status, defaultdict_getitem.
  fold k. destruct (dict_get d k) as [v|] eqn:G; cbn [fst snd].
  - destruct (Sk k) as [X | X]; rewrite G in X; [discriminate|].
    injection X as ->.
    split; [reflexivity|]. split; [now repeat split|].
    split; [exact G|]. split; reflexivity.
  - assert (Nk : status_name k = "fireball"%string).
    { unfold status_name. destruct (k =? 0) eqn:E0.
      - apply Z.eqb_eq in E0. rewrite E0 in G. congruence.
      - destruct (k =? 1) eqn:E1; [|reflexivity].
        apply Z.eqb_eq in E1. rewrite E1 in G. congruence. }
    split; [now rewrite Nk|]. split.
    { split; [|split].
      - rewrite dict_get_app, S0. reflexivity.
      - rewrite dict_get_app, S1. reflexivity.
      - intros k'. rewrite dict_get_app.
        destruct (Sk k') as [X | X]; rewrite X; [|now right].
        destruct (k =? k') eqn:E; [|now left].
        apply Z.eqb_eq in E. subst k'. right. now rewrite Nk. }
    split.
    { rewrite dict_get_app, G, Z.eqb_refl. now rewrite Nk. }
    split.
    + intros k' N. rewrite dict_get_app.
      destruct (dict_get d k'); [reflexivity | congruence].
    + congruence.
Qed.

Lemma player_status_lookup_witness :
  status_map_ok _STATUS_MAP
  /\ fst (_player_status _STATUS_MAP (ram_set ram_zero 0x0756 2))
     = "fireball"%string
  /\ dict_get (snd (_player_status _STATUS_MAP (ram_set ram_zero 0x0756 2))) 2
     = Some "fireball"%string.
Proof.
  assert (O : status_map_ok _STATUS_MAP).
  { split; [reflexivity|]. split; [reflexivity|]. intros k.
    unfold _STATUS_MAP, status_name. cbn [dict_get].
    rewrite (Z.eqb_sym 0 k), (Z.eqb_sym 1 k).
    destruct (k =? 0); [now right|]. destruct (k =? 1); [now right | now left]. }
  split; [exact O|].
  pose proof (player_status_lookup _STATUS_MAP (ram_set ram_zero 0x0756 2) O)
    as [F [_ [G _]]].
  split; [exact F | exact G].
Defined.

(** ** More on the reward *)

Lemma get_reward_eq (e : Env) :
  ram_ok (ram e) = true ->
  exists t,
    _time (ram e) = Some t
    /\ let total := (if _x_position (ram e) - _x_position_last e =? 0 then -10 else 0)
                    + (if _is_dying (ram e) || _is_dead (ram e) then -5000 else 0)
                    + (if t =? 0 then -5000 else 5)
                    + (if _flag_get (ram e) then 1000000 else 0) in
       _get_reward e
       = Some (total, set_r (set_x_position_last e (_x_position (ram e))) total).
Proof.
  intros H. destruct (time_penalty_value e H) as [t [T P]].
  exists t. split; [exact T|]. cbv zeta.
  unfold _get_reward, _x_reward.
  set (e1 := set_x_position_last e (_x_position (ram e))).
  assert (P1 : _time_penalty e1 = Some (if t =? 0 then -5000 else 5)) by exact P.
  assert (D1 : _death_penalty e1
               = if _is_dying (ram e) || _is_dead (ram e) then -5000 else 0)
    by reflexivity.
  destruct (_x_position (ram e) - _x_position_last e =? 0);
    rewrite P1, D1; cbn [bind set_r ram r];
    change (ram e1) with (ram e);
    destruct (_flag_get (ram e)); cbn [set_r ram r _target_world _target_stage
                                       _target_area _time_last _x_position_last];
    rewrite ?Z.add_0_r; reflexivity.
Qed.

(** X8.  On a memory image the reward takes one of sixteen values
    between -10010 and 1000005 and is never 0.  It falls inside the
    declared [reward_range] of -15..15 exactly on the steps where Mario
    is neither dying nor dead, the time is not 0 and the flag is not
    reached; it is then 5 or -5. *)
Theorem get_reward_values (e : Env) :
  ram_ok (ram e) = true ->
  exists rew e',
    _get_reward e = Some (rew, e')
    /\ In rew [5; -5; -5000; -5010; -4995; -5005; -10000; -10010;
               1000005; 999995; 995000; 994990; 995005; 994995;
               990000; 989990]
    /\ rew <> 0
    /\ -10010 <= rew <= 1000005
    /\ (fst reward_range <= rew <= snd reward_range <->
        _is_dying (ram e) || _is_dead (ram e) = false
        /\ _time (ram e) <> Some 0
        /\ _flag_get (ram e) = false)
    /\ (fst reward_range <= rew <= snd reward_range -> rew = 5 \/ rew = -5).
Proof.
  intros H. destruct (get_reward_eq e H) as [t [T G]]. cbv zeta in G.
  eexists. eexists. split; [exact G|]. rewrite T. unfold reward_range. cbn [fst snd].
  destruct (_x_position (ram e) - _x_position_last e =? 0),
    (_is_dying (ram e) || _is_dead (ram e)), (t =? 0) eqn:Et,
    (_flag_get (ram e));
    (split; [vm_compute; repeat (first [left; reflexivity | right])|]);
    (split; [lia|]); (split; [lia|]);
    (split;
     [split;
      [intros B;
       first [lia
             | split; [reflexivity|]; split; [|reflexivity];
               intros Q; apply Z.eqb_neq in Et; congruence]
      |intros [A [B C]];
       first [discriminate A | discriminate C | lia
             | exfalso; apply B; f_equal; apply Z.eqb_eq; exact Et]]
     |intros B; lia]).
Qed.

Lemma get_reward_values_witness :
  ram_ok (ram play_env) = true
  /\ exists rew e', _get_reward play_env = Some (rew, e')
                    /\ rew <> 0 /\ -10010 <= rew <= 1000005.
Proof.
  assert (H : ram_ok (ram play_env) = true) by (vm_compute; reflexivity).
  split; [exact H|].
  destruct (get_reward_values play_env H) as [rew [e' [G [_ [N [B _]]]]]].
  exists rew, e'. split; [exact G|]. split; [exact N | exact B].
Defined.

(** X9.  The reward is not a pure reading: computing it moves the
    remembered position.  A second computation on the same memory
    therefore always carries the standstill penalty of -10; it is never
    above the first, and equals it exactly when the position had not
    changed before the first. *)
Theorem get_reward_twice (e e1 : Env) (r1 : Z) :
  ram_ok (ram e) = true ->
  _get_reward e = Some (r1, e1) ->
  exists r2 e2 t,
    _time (ram e) = Some t
    /\ _get_reward e1 = Some (r2, e2)
    /\ r2 = -10
            + (if _is_dying (ram e) || _is_dead (ram e) then -5000 else 0)
            + (if t =? 0 then -5000 else 5)
            + (if _flag_get (ram e) then 1000000 else 0)
    /\ r2 <= r1
    /\ (r2 = r1 <-> _x_position (ram e) = _x_position_last e)
    /\ ram e2 = ram e
    /\ _x_position_last e2 = _x_position_last e1.
Proof.
  intros H G.
  destruct (get_reward_eq e H) as [t [T G1]]. cbv zeta in G1.
  rewrite G1 in G. injection G as R1 E1.
  assert (M : ram e1 = ram e) by (rewrite <- E1; reflexivity).
  assert (X : _x_position_last e1 = _x_position (ram e)) by (rewrite <- E1; reflexivity).
  assert (H1 : ram_ok (ram e1) = true) by (rewrite M; exact H).
  destruct (get_reward_eq e1 H1) as [t' [T' G2]]. cbv zeta in G2.
  rewrite M in T'. rewrite T in T'. injection T' as <-.
  rewrite M, X, Z.sub_diag, Z.eqb_refl in G2.
  eexists. eexists. exists t. split; [exact T|]. split; [exact G2|].
  split; [reflexivity|].
  rewrite <- R1.
  destruct (_x_position (ram e) - _x_position_last e =? 0) eqn:D.
  - apply Z.eqb_eq in D. split; [lia|]. split; [split; intros; lia|].
    split; [exact M | symmetry; exact X].
  - apply Z.eqb_neq in D. split; [lia|]. split; [split; intros; lia|].
    split; [exact M | symmetry; exact X].
Qed.

Lemma get_reward_twice_witness :
  ram_ok (ram play_env) = true
  /\ exists r1 e1 r2 e2,
       _get_reward play_env = Some (r1, e1)
       /\ _get_reward e1 = Some (r2, e2)
       /\ r2 <= r1.
Proof.
  assert (H : ram_ok (ram play_env) = true) by (vm_compute; reflexivity).
  split; [exact H|].
  destruct (_get_reward play_env) as [[r1 e1]|] eqn:G;
    [|vm_compute in G; discriminate].
  destruct (get_reward_twice play_env e1 r1 H G) as [r2 [e2 [t [_ [G2 [_ [L _]]]]]]].
  exists r1, e1, r2, e2. split; [reflexivity|]. split; [exact G2 | exact L].
Defined.

(** X10.  The property [_reward] adds the same three terms as
    [_get_reward]: on a memory image the two differ by the flag bonus
    only, and [_reward] leaves [self.r] as it was while it does move the
    remembered position. *)
Theorem reward_property_agrees (e : Env) :
  ram_ok (ram e) = true ->
  exists v e1 rew e2,
    _reward e = Some (v, e1)
    /\ _get_reward e = Some (rew, e2)
    /\ rew = v + (if _flag_get (ram e) then 1000000 else 0)
    /\ r e1 = r e
    /\ r e2 = rew
    /\ _x_position_last e1 = _x_position (ram e)
    /\ _x_position_last e2 = _x_position (ram e).
Proof.
  intros H. destruct (get_reward_eq e H) as [t [T G]]. cbv zeta in G.
  destruct (time_penalty_value e H) as [t' [T' P]].
  rewrite T in T'. injection T' as <-.
  unfold _reward, _x_reward.
  set (e1 := set_x_position_last e (_x_position (ram e))) in *.
  assert (P1 : _time_penalty e1 = Some (if t =? 0 then -5000 else 5)) by exact P.
  assert (D1 : _death_penalty e1
               = if _is_dying (ram e) || _is_dead (ram e) then -5000 else 0)
    by reflexivity.
  destruct (_x_position (ram e) - _x_position_last e =? 0);
    rewrite P1, D1; cbn [bind];
    do 4 eexists; (split; [reflexivity|]); (split; [exact G|]);
    (split; [lia|]); repeat split.
Qed.

Lemma reward_property_agrees_witness :
  ram_ok (ram flag_env) = true
  /\ exists v e1, _reward flag_env = Some (v, e1) /\ r e1 = r flag_env.
Proof.
  assert (H : ram_ok (ram flag_env) = true) by (vm_compute; reflexivity).
  split; [exact H|].
  destruct (reward_property_agrees flag_env H)
    as [v [e1 [rew [e2 [R [_ [_ [K _]]]]]]]].
  exists v, e1. split; [exact R | exact K].
Defined.

(** ** Resets *)

(** X11.  A reset forgets what was remembered: after [_will_reset], the
    restore of a memory image and [_did_reset], the remembered position
    and time are those of the restored image, whatever they were
    before.  The target is kept, and so is the last reward in [self.r],
    which no reset clears.  The first reward after the reset carries the
    standstill penalty when the image is still the restored one. *)
Theorem reset_synchronises (e : Env) (m : RAM) :
  ram_ok m = true ->
  exists e' t,
    _did_reset (set_ram (_will_reset e) m) = Some e'
    /\ ram e' = m
    /\ _time m = Some t
    /\ _time_last e' = t
    /\ _x_position_last e' = _x_position m
    /\ r e' = r e
    /\ same_target e e'
    /\ fst (_x_reward e') = -10
    /\ (exists e'', _get_reward e'
                    = Some (-10
                            + (if _is_dying m || _is_dead m then -5000 else 0)
                            + (if t =? 0 then -5000 else 5)
                            + (if _flag_get m then 1000000 else 0), e'')).
Proof.
  intros H. pose proof (time_ok m H) as T.
  set (t := concat_value (ram_slice m 0x07f8 3)) in *.
  unfold _did_reset, _will_reset. cbn [set_ram set_time_last set_x_position_last ram].
  rewrite T. cbn [bind].
  eexists. exists t. split; [reflexivity|].
  cbn [ram _time_last _x_position_last r set_ram set_time_last set_x_position_last].
  split; [reflexivity|]. split; [reflexivity|]. split; [reflexivity|].
  split; [reflexivity|]. split; [reflexivity|]. split; [now repeat split|].
  split.
  { unfold _x_reward. cbn [ram _x_position_last]. rewrite Z.sub_diag. reflexivity. }
  match goal with
  | |- exists _, _get_reward ?e0 = _ =>
      destruct (get_reward_eq e0 H) as [t' [T' G]];
      change (ram e0) with m in T', G;
      change (_x_position_last e0) with (_x_position m) in G
  end.
  assert (Et : t' = t) by congruence. subst t'.
  cbv zeta in G. rewrite Z.sub_diag in G. change (0 =? 0) with true in G.
  cbv iota in G. eexists. exact G.
Qed.

Lemma reset_synchronises_witness :
  ram_ok play_ram = true
  /\ exists e' t,
       _did_reset (set_ram (_will_reset flag_env) play_ram) = Some e'
       /\ _time_last e' = t
       /\ _x_position_last e' = _x_position play_ram
       /\ r e' = r flag_env.
Proof.
  assert (H : ram_ok play_ram = true) by (vm_compute; reflexivity).
  split; [exact H|].
  destruct (reset_synchronises flag_env play_ram H)
    as [e' [t [D [_ [_ [L [X [K _]]]]]]]].
  exists e', t. repeat split; assumption.
Defined.

(** ** Termination and reward *)

(** X12.  In single-stage mode the episode ends exactly on the steps
    whose reward carries the death penalty or the flag bonus; on a
    memory image a step that does not end the episode is rewarded 5,
    -5, -5000 or -5010.  Outside single-stage mode neither death nor
    flag ends the episode, only the loss of the last life. *)
Theorem done_and_reward (e : Env) :
  (is_single_stage_env e = true ->
   (_get_done e = true <->
    _death_penalty e = -5000 \/ _flag_get (ram e) = true))
  /\ (is_single_stage_env e = true -> ram_ok (ram e) = true ->
      _get_done e = false ->
      exists rew e', _get_reward e = Some (rew, e')
                     /\ In rew [5; -5; -5000; -5010]
                     /\ _get_done e' = false)
  /\ (is_single_stage_env e = false ->
      (_get_done e = true <-> _life (ram e) = 0xff)).
Proof.
  split; [|split].
  - intros S. unfold _get_done, _death_penalty. rewrite S.
    destruct (_is_dying (ram e) || _is_dead (ram e)), (_flag_get (ram e));
      cbn; split; intros X; try reflexivity; try discriminate; auto;
      destruct X; discriminate.
  - intros S H D. destruct (get_reward_eq e H) as [t [T G]]. cbv zeta in G.
    assert (D' := D). unfold _get_done in D. rewrite S in D.
    apply orb_false_iff in D. destruct D as [D1 D2].
    rewrite D1, D2 in G. eexists. eexists. split; [exact G|]. split.
    + destruct (_x_position (ram e) - _x_position_last e =? 0), (t =? 0);
        cbn; tauto.
    + exact D'.
  - intros S. unfold _get_done, _is_game_over. rewrite S. apply Z.eqb_eq.
Qed.

Lemma done_and_reward_witness :
  is_single_stage_env play_env = true
  /\ ram_ok (ram play_env) = true
  /\ _get_done play_env = false
  /\ exists rew e', _get_reward play_env = Some (rew, e')
                    /\ In rew [5; -5; -5000; -5010].
Proof.
  assert (S : is_single_stage_env play_env = true) by reflexivity.
  assert (H : ram_ok (ram play_env) = true) by (vm_compute; reflexivity).
  assert (D : _get_done play_env = false) by (vm_compute; reflexivity).
  split; [exact S|]. split; [exact H|]. split; [exact D|].
  destruct (proj1 (proj2 (done_and_reward play_env)) S H D) as [rew [e' [G [I _]]]].
  exists rew, e'. split; [exact G | exact I].
Defined.

(** ** More on the tile grid *)

Lemma get_tiles_shape (e : Env) :
  ram_ok (ram e) = true ->
  exists grid,
    _get_tiles e = Some grid
    /\ List.length grid = 12%nat
    /\ Forall (fun row => List.length row = 15%nat
                          /\ Forall (fun v => v = 0 \/ v = 1 \/ v = 2 \/ v = 3) row)
              grid.
Proof.
  intros H.
  set (cell := tile_cell (ram e) (_get_enemies (ram e)) (_left_x_position (ram e))
                         (_y_viewport (ram e))).
  set (row := fun box_y => map_opt (cell box_y) (py_range (-7 * 16) (8 * 16) 16)).
  destruct (map_opt_spec row
              (fun l => List.length l = 15%nat
                        /\ Forall (fun v => v = 0 \/ v = 1 \/ v = 2 \/ v = 3) l)
              (py_range (-4 * 16) (8 * 16) 16)) as [grid [G [L F]]].
  { intros box_y _. subst row. cbv beta.
    destruct (map_opt_spec (cell box_y)
                (fun v => v = 0 \/ v = 1 \/ v = 2 \/ v = 3)
                (py_range (-7 * 16) (8 * 16) 16)) as [l [El [Ll Fl]]].
    - intros box_x _. apply tile_cell_value. exact H.
    - exists l. split; [exact El|]. split; [|exact Fl].
      rewrite Ll, py_range_columns. reflexivity. }
  exists grid. split; [exact G|]. split; [|exact F].
  rewrite L, py_range_rows. reflexivity.
Qed.

Lemma map_opt_nth_inv {A B : Type} (f : A -> option B) (l : list A) (l' : list B)
    (i : nat) (b : B) :
  map_opt f l = Some l' ->
  nth_error l' i = Some b ->
  exists a, nth_error l i = Some a /\ f a = Some b.
Proof.
  revert l' i. induction l as [|x l IH]; intros l' i E N.
  - cbn in E. injection E as <-. destruct i; discriminate.
  - cbn [map_opt] in E. destruct (f x) as [y|] eqn:Ey; [|discriminate].
    cbn [bind] in E. destruct (map_opt f l) as [ys|] eqn:Eys; [|discriminate].
    cbn [bind] in E. injection E as <-.
    destruct i as [|i]; cbn [nth_error] in *.
    + injection N as <-. now exists x.
    + now apply (IH ys i).
Qed.

Lemma concat_length_uniform (n : nat) (grid : list (list Z)) :
  Forall (fun row => List.length row = n) grid ->
  List.length (List.concat grid) = (List.length grid * n)%nat.
Proof.
  induction 1 as [|row grid Hr _ IH]; [reflexivity|].
  cbn [List.concat List.length]. rewrite length_app, Hr, IH. lia.
Qed.

Lemma concat_nth_uniform (n : nat) (grid : list (list Z)) (i j : nat) :
  Forall (fun row => List.length row = n) grid ->
  (j < n)%nat ->
  nth_error (List.concat grid) (i * n + j) = grid_at grid i j.
Proof.
  intros F J. revert i. induction F as [|row grid Hr _ IH]; intros i.
  - unfold grid_at. cbn [List.concat]. destruct (i * n + j)%nat, i; reflexivity.
  - cbn [List.concat]. destruct i as [|i].
    + unfold grid_at. cbn [nth_error bind Nat.mul Nat.add].
      apply nth_error_app1. lia.
    + unfold grid_at. cbn [nth_error].
      rewrite nth_error_app2 by lia.
      replace (S i * n + j - List.length row)%nat with (i * n + j)%nat by lia.
      apply IH.
Qed.

Lemma tile_cell_sources (m : RAM) (enemies : list Enemy)
    (left_x y_viewport box_y box_x v : Z) :
  tile_cell m enemies left_x y_viewport box_y box_x = Some v ->
  (v = 3 -> y_viewport = 1)
  /\ (v = 2 -> enemies <> [])
  /\ (v = 0 -> _y_position m + box_y < 0x1B0 ->
      exists t reads, _get_tile_type m box_x box_y = Some (t, reads) /\ t <> 1).
Proof.
  unfold tile_cell. intros C.
  destruct (_get_tile_type m box_x box_y) as [[t reads]|] eqn:T; [|discriminate].
  cbn [bind fst] in C.
  apply (f_equal (fun o => match o with Some x => x | None => 0 end)) in C.
  cbv beta iota in C.
  set (base := if (t =? 1) && (_y_position m + box_y <? 432) then 1 else 0) in *.
  match type of C with
  | context [fold_left (fun tv i => if @?c i then 2 else tv) ?es ?v0] =>
      pose proof (enemy_pass_value c es v0) as P; cbv zeta beta in P;
      assert (N : es = [] -> fold_left (fun tv i => if c i then 2 else tv) es v0 = v0)
        by (intros ->; reflexivity);
      cbv beta in N;
      set (pass := fold_left (fun tv i => if c i then 2 else tv) es v0) in *
  end.
  assert (B : base = 0 \/ base = 1) by (subst base; destruct (_ && _); auto).
  assert (B0 : base = 0 -> _y_position m + box_y < 432 -> t <> 1).
  { subst base. intros Q Y. apply Z.ltb_lt in Y. rewrite Y, andb_true_r in Q.
    destruct (t =? 1) eqn:Q1; [discriminate|]. now apply Z.eqb_neq in Q1. }
  destruct (y_viewport =? 1) eqn:V; cbn [andb] in C.
  - apply Z.eqb_eq in V. split; [intros _; exact V|].
    destruct (_ && _) in C.
    + subst v. split; discriminate.
    + subst v. split.
      * intros Q X. specialize (N X). lia.
      * intros Q Y. exists t, reads. split; [reflexivity|].
        apply B0; [lia | exact Y].
  - subst v. split; [lia|]. split.
    + intros Q X. specialize (N X). lia.
    + intros Q Y. exists t, reads. split; [reflexivity|].
      apply B0; [lia | exact Y].
Qed.

Lemma grid_cell_origin (e : Env) (grid : list (list Z)) (i j : nat) (v : Z) :
  _get_tiles e = Some grid ->
  grid_at grid i j = Some v ->
  exists box_y box_x,
    nth_error (py_range (-4 * 16) (8 * 16) 16) i = Some box_y
    /\ nth_error (py_range (-7 * 16) (8 * 16) 16) j = Some box_x
    /\ tile_cell (ram e) (_get_enemies (ram e)) (_left_x_position (ram e))
                 (_y_viewport (ram e)) box_y box_x = Some v.
Proof.
  unfold _get_tiles, grid_at. intros G C.
  destruct (nth_error grid i) as [row|] eqn:R; [|discriminate].
  cbn [bind] in C.
  destruct (map_opt_nth_inv _ _ _ _ _ G R) as [box_y [Ny Ry]].
  cbv beta in Ry.
  destruct (map_opt_nth_inv _ _ _ _ _ Ry C) as [box_x [Nx Cx]].
  now exists box_y, box_x.
Qed.

(** X13.  Where the values of the grid come from.  A cell is 3 only
    when Mario is in the visible viewport, and 2 only when one of the
    four enemy slots is active.  From the visible viewport downwards
    the floor threshold of 0x1B0 never hides a tile: on a memory image
    a cell that reads 0 lies over an empty tile. *)
Theorem get_tiles_sources (e : Env) (grid : list (list Z)) :
  _get_tiles e = Some grid ->
  (forall i j, grid_at grid i j = Some 3 -> _y_viewport (ram e) = 1)
  /\ (forall i j, grid_at grid i j = Some 2 -> _get_enemies (ram e) <> [])
  /\ (ram_ok (ram e) = true -> 1 <= _y_viewport (ram e) ->
      forall i j box_y box_x,
        nth_error (py_range (-4 * 16) (8 * 16) 16) i = Some box_y ->
        nth_error (py_range (-7 * 16) (8 * 16) 16) j = Some box_x ->
        grid_at grid i j = Some 0 ->
        exists reads, _get_tile_type (ram e) box_x box_y = Some (0, reads)).
Proof.
  intros G. split; [|split].
  - intros i j C.
    destruct (grid_cell_origin e grid i j 3 G C) as [box_y [box_x [_ [_ T]]]].
    now apply (tile_cell_sources _ _ _ _ _ _ _ T).
  - intros i j C.
    destruct (grid_cell_origin e grid i j 2 G C) as [box_y [box_x [_ [_ T]]]].
    now apply (tile_cell_sources _ _ _ _ _ _ _ T).
  - intros H V i j box_y box_x Ny Nx C.
    destruct (grid_cell_origin e grid i j 0 G C) as [by' [bx' [Ny' [Nx' T]]]].
    assert (by' = box_y) by congruence. assert (bx' = box_x) by congruence.
    subst by' bx'.
    assert (Y : _y_position (ram e) + box_y < 0x1B0).
    { assert (box_y <= 112).
      { apply nth_error_In in Ny. rewrite py_range_rows in Ny. cbn [In] in Ny.
        repeat (destruct Ny as [<- | Ny]; [lia|]). contradiction. }
      pose proof (ram_at_byte (ram e) 0x03b8 H) as B.
      unfold _y_position, _y_pixel.
      replace (_y_viewport (ram e) <? 1) with false
        by (symmetry; apply Z.ltb_ge; lia). lia. }
    destruct (proj2 (proj2 (tile_cell_sources _ _ _ _ _ _ _ T)) eq_refl Y)
      as [t [reads [Tt Nt]]].
    destruct (get_tile_type_cases (ram e) box_x box_y H)
      as [t' [reads' [Tt' [[Z0 | Z1] _]]]];
      rewrite Tt in Tt'; injection Tt' as <- <-.
    + exists reads. now rewrite Z0 in Tt.
    + contradiction.
Qed.

Lemma get_tiles_sources_witness :
  exists grid,
    _get_tiles overlap_hidden_env = Some grid
    /\ forall i j, grid_at grid i j <> Some 3.
Proof.
  destruct (_get_tiles overlap_hidden_env) as [grid|] eqn:G;
    [|vm_compute in G; discriminate].
  exists grid. split; [reflexivity|]. intros i j C.
  pose proof (proj1 (get_tiles_sources overlap_hidden_env grid G) i j C) as V.
  vm_compute in V. discriminate.
Defined.

(** ** The network input *)

(** X14.  The grid always fits the input of the network: on a memory
    image [np.reshape(info["enemy"], [1, state_size])] does not raise
    and gives one row of 180 values, each 0, 1, 2 or 3, the cell of
    row [i] and column [j] of the grid at index [15 * i + j]. *)
Theorem reshape_state_row (e : Env) :
  ram_ok (ram e) = true ->
  exists grid row,
    _get_tiles e = Some grid
    /\ np_reshape_row grid state_size = Some [row]
    /\ List.length row = 180%nat
    /\ Forall (fun v => v = 0 \/ v = 1 \/ v = 2 \/ v = 3) row
    /\ (forall i j, (j < 15)%nat ->
                    nth_error row (15 * i + j) = grid_at grid i j).
Proof.
  intros H. destruct (get_tiles_shape e H) as [grid [G [L F]]].
  assert (F15 : Forall (fun row => List.length row = 15%nat) grid).
  { eapply Forall_impl; [|exact F]. cbv beta. intros row R. apply R. }
  pose proof (concat_length_uniform 15 grid F15) as LC. rewrite L in LC.
  exists grid, (List.concat grid). split; [exact G|]. split.
  { unfold np_reshape_row, state_size. rewrite LC. reflexivity. }
  split; [exact LC|]. split.
  { apply Forall_concat. eapply Forall_impl; [|exact F].
    cbv beta. intros row R. apply R. }
  intros i j J. rewrite (Nat.mul_comm 15 i).
  now apply concat_nth_uniform.
Qed.

Lemma reshape_state_row_witness :
  ram_ok (ram overlap_env) = true
  /\ exists grid row,
       _get_tiles overlap_env = Some grid
       /\ np_reshape_row grid state_size = Some [row]
       /\ List.length row = 180%nat.
Proof.
  assert (H : ram_ok (ram overlap_env) = true) by (vm_compute; reflexivity).
  split; [exact H|].
  destruct (reshape_state_row overlap_env H) as [grid [row [G [R [L _]]]]].
  exists grid, row. split; [exact G|]. split; [exact R | exact L].
Defined.

(** ** Tile lookup across pages *)

(** X15.  The tile table covers two screen pages, so the tile lookup is
    periodic in the horizontal offset with period 512: offsets 512
    pixels apart read the same cell and give the same answer. *)
Theorem get_tile_type_period (m : RAM) (box_x box_y : Z) :
  small_offset box_x -> small_offset (box_x + 512) -> small_offset box_y ->
  _get_tile_type m (box_x + 512) box_y = _get_tile_type m box_x box_y.
Proof.
  intros _ _ _. unfold _get_tile_type.
  set (lx := _x_position m - _left_x_position m + box_x + 112).
  replace (_x_position m - _left_x_position m + (box_x + 512) + 112)
    with (lx + 2 * 256) by (subst lx; lia).
  rewrite Z.div_add by lia. rewrite Z.mod_add by lia.
  replace ((lx / 256 + 2) mod 2) with ((lx / 256) mod 2)
    by (replace (lx / 256 + 2) with (lx / 256 + 1 * 2) by lia;
        now rewrite Z.mod_add by lia).
  reflexivity.
Qed.

Lemma get_tile_type_period_witness :
  small_offset (-112) /\ small_offset (-112 + 512) /\ small_offset 96
  /\ _get_tile_type overlap_ram (-112 + 512) 96 = _get_tile_type overlap_ram (-112) 96.
Proof.
  assert (A : small_offset (-112)) by (unfold small_offset; lia).
  assert (B : small_offset (-112 + 512)) by (unfold small_offset; lia).
  assert (C : small_offset 96) by (unfold small_offset; lia).
  split; [exact A|]. split; [exact B|]. split; [exact C|].
  exact (get_tile_type_period overlap_ram (-112) 96 A B C).
Defined.

(** ** The info dictionary *)

Lemma defaultdict_getitem_name (d : StatusMap) (k : Z) :
  status_map_ok d ->
  fst (defaultdict_getitem d k) = status_name k
  /\ status_map_ok (snd (defaultdict_getitem d k)).
Proof.
  intros [S0 [S1 Sk]]. unfold defaultdict_getitem.
  destruct (dict_get d k) as [v|] eqn:G; cbn [fst snd].
  - destruct (Sk k) as [X | X]; rewrite G in X; [discriminate|].
    injection X as ->. split; [reflexivity | now repeat split].
  - assert (Nk : status_name k = "fireball"%string).
    { unfold status_name. destruct (k =? 0) eqn:E0.
      - apply Z.eqb_eq in E0. rewrite E0 in G. congruence.
      - destruct (k =? 1) eqn:E1; [|reflexivity].
        apply Z.eqb_eq in E1. rewrite E1 in G. congruence. }
    split; [now rewrite Nk|]. split; [|split].
    + rewrite dict_get_app, S0. reflexivity.
    + rewrite dict_get_app, S1. reflexivity.
    + intros k'. rewrite dict_get_app.
      destruct (Sk k') as [X | X]; rewrite X; [|now right].
      destruct (k =? k') eqn:E; [|now left].
      apply Z.eqb_eq in E. subst k'. right. now rewrite Nk.
Qed.

Lemma get_info_value (d : StatusMap) (e : Env) :
  ram_ok (ram e) = true ->
  status_map_ok d ->
  exists info d',
    _get_info d e = Some (info, d')
    /\ info_reward info = r e
    /\ info_x_pos info = _x_position (ram e)
    /\ info_y_pos info = _y_position (ram e)
    /\ info_flag_get info = _flag_get (ram e)
    /\ info_status info = status_name (ram_at (ram e) 0x0756)
    /\ _time (ram e) = Some (info_time info)
    /\ _get_tiles e = Some (info_enemy info)
    /\ status_map_ok d'.
Proof.
  intros H O. unfold _get_info.
  destruct (read_mem_range_bounds (ram e) 0x07ed 2 H) as [c [Ec _]]; try lia.
  destruct (read_mem_range_bounds (ram e) 0x07de 6 H) as [sc [Es _]]; try lia.
  destruct (read_mem_range_bounds (ram e) 0x07f8 3 H) as [t [Et _]]; try lia.
  destruct (get_tiles_shape e H) as [grid [G _]].
  unfold _coins, _score, _time. rewrite Ec, Es, Et. cbn [bind].
  destruct (defaultdict_getitem_name d (ram_at (ram e) 0x0756) O) as [N O'].
  unfold _player_status.
  destruct (defaultdict_getitem d (ram_at (ram e) 0x0756)) as [status d'].
  cbn [fst snd] in N, O'. rewrite G. cbn [bind].
  eexists. eexists. split; [reflexivity|].
  cbn [info_reward info_x_pos info_y_pos info_flag_get info_status info_time
       info_enemy].
  do 7 (split; [first [reflexivity | assumption]|]). exact O'.
Qed.

(** X16.  On a memory image [_get_info] does not raise.  Computed after
    the reward, as a step does, its [reward] entry is the reward just
    returned and its [x_pos] the position the reward computation has
    remembered; the status is the one named by the status register and
    the [enemy] entry is the tile grid. *)
Theorem get_info_after_reward (d : StatusMap) (e e1 : Env) (rew : Z) :
  ram_ok (ram e) = true ->
  status_map_ok d ->
  _get_reward e = Some (rew, e1) ->
  exists info d',
    _get_info d e1 = Some (info, d')
    /\ info_reward info = rew
    /\ info_x_pos info = _x_position_last e1
    /\ info_y_pos info = _y_position (ram e)
    /\ info_flag_get info = _flag_get (ram e)
    /\ info_status info = status_name (ram_at (ram e) 0x0756)
    /\ _time (ram e) = Some (info_time info)
    /\ _get_tiles e = Some (info_enemy info)
    /\ status_map_ok d'.
Proof.
  intros H O G.
  destruct (get_reward_eq e H) as [t [T G1]]. cbv zeta in G1.
  rewrite G1 in G. injection G as R1 E1.
  assert (M : ram e1 = ram e) by (rewrite <- E1; reflexivity).
  assert (X : _x_position_last e1 = _x_position (ram e)) by (rewrite <- E1; reflexivity).
  assert (K : r e1 = rew) by (rewrite <- E1, <- R1; reflexivity).
  assert (H1 : ram_ok (ram e1) = true) by (rewrite M; exact H).
  destruct (get_info_value d e1 H1 O)
    as [info [d' [I [Ir [Ix [Iy [If [Is [It [Ie O']]]]]]]]]].
  exists info, d'. rewrite M in *. rewrite X.
  rewrite (get_tiles_only_ram e e1 M) in Ie.
  split; [exact I|].
  do 7 (split; [first [assumption | congruence]|]). exact O'.
Qed.

Lemma get_info_after_reward_witness :
  ram_ok (ram play_env) = true
  /\ status_map_ok _STATUS_MAP
  /\ exists rew e1 info d',
       _get_reward play_env = Some (rew, e1)
       /\ _get_info _STATUS_MAP e1 = Some (info, d')
       /\ info_reward info = rew.
Proof.
  assert (H : ram_ok (ram play_env) = true) by (vm_compute; reflexivity).
  assert (O : status_map_ok _STATUS_MAP).
  { split; [reflexivity|]. split; [reflexivity|]. intros k.
    unfold _STATUS_MAP, status_name. cbn [dict_get].
    rewrite (Z.eqb_sym 0 k), (Z.eqb_sym 1 k).
    destruct (k =? 0); [now right|]. destruct (k =? 1); [now right | now left]. }
  split; [exact H|]. split; [exact O|].
  destruct (_get_reward play_env) as [[rew e1]|] eqn:G;
    [|vm_compute in G; discriminate].
  destruct (get_info_after_reward _STATUS_MAP play_env e1 rew H O G)
    as [info [d' [I [R _]]]].
  exists rew, e1, info, d'. split; [reflexivity|]. split; [exact I | exact R].
Defined.

(** ** Quiet steps *)

Lemma quiet_step_intro {E : Emulator} (evs : list Event) (s s' : Session E) :
  extends evs s s' -> forallb quiet_event evs = true -> quiet_step s s'.
Proof. intros X Q. now exists evs. Qed.

Lemma quiet_step_refl {E : Emulator} (s : Session E) : quiet_step s s.
Proof.
  exists []. split; [|reflexivity].
  apply extends_refl; [reflexivity | now repeat split].
Qed.

Lemma quiet_step_trans {E : Emulator} (s1 s2 s3 : Session E) :
  quiet_step s1 s2 -> quiet_step s2 s3 -> quiet_step s1 s3.
Proof.
  intros [evs1 [X1 Q1]] [evs2 [X2 Q2]]. exists (evs1 ++ evs2). split.
  - exact (extends_trans _ _ _ _ _ X1 X2).
  - rewrite forallb_app, Q1, Q2. reflexivity.
Qed.

Lemma repeat_events_length (n : nat) (evs : list Event) :
  List.length (repeat_events n evs) = (n * List.length evs)%nat.
Proof.
  induction n as [|n IH]; [reflexivity|].
  cbn [repeat_events]. rewrite length_app, IH. lia.
Qed.

Lemma repeat_events_quiet (n : nat) (evs : list Event) :
  forallb quiet_event evs = true ->
  forallb quiet_event (repeat_events n evs) = true.
Proof.
  intros Q. induction n as [|n IH]; [reflexivity|].
  cbn [repeat_events]. now rewrite forallb_app, Q, IH.
Qed.

Lemma occupied_body_extends {E : Emulator} (s s' : Session E) :
  occupied_body s = Some s' -> extends occupied_events s s'.
Proof.
  unfold occupied_body, _runout_prelevel_timer. intros B. injection B as <-.
  apply (extends_trans [_] [_] s (store 0x07A0 0 s)).
  - apply (store_extends 0x07A0 0).
  - apply frame_advance_extends.
Qed.

Lemma world_body_extends {E : Emulator} (s s' : Session E) :
  world_body s = Some s' -> extends [EvFrame 0] s s'.
Proof.
  unfold world_body. intros B. injection B as <-. apply frame_advance_extends.
Qed.

(** ** Occupied states *)

(** X17.  [_skip_occupied_states] returns exactly when some number of
    passes leads to a state that is neither busy nor at the end of a
    world, every state before being one or the other; it returns in
    that state.  Each pass zeroes the pre-level timer and runs one frame
    with no button held.  From a state that is neither, nothing is
    done; on a console that never leaves such states the loop never
    returns. *)
Theorem skip_occupied_states_runs (E : Emulator) (s s' : Session E) :
  ((exists fuel, _skip_occupied_states fuel s = Some s') <->
   (exists n,
       iterate n occupied_body s = Some s'
       /\ (forall k, (k < n)%nat ->
             exists sk, iterate k occupied_body s = Some sk
                        /\ _is_busy (ram (env sk)) || _is_world_over (ram (env sk))
                           = true)
       /\ _is_busy (ram (env s')) = false
       /\ _is_world_over (ram (env s')) = false))
  /\ (forall fuel,
        _skip_occupied_states fuel s = Some s' ->
        exists n, (n < fuel)%nat
                  /\ trace s' = trace s ++ repeat_events n occupied_events
                  /\ same_target (env s) (env s')
                  /\ _is_busy (ram (env s')) = false
                  /\ _is_world_over (ram (env s')) = false)
  /\ (_is_busy (ram (env s)) = false -> _is_world_over (ram (env s)) = false ->
      forall fuel, _skip_occupied_states (S fuel) s = Some s)
  /\ ((forall k sk, iterate k occupied_body s = Some sk ->
                    _is_busy (ram (env sk)) || _is_world_over (ram (env sk)) = true) ->
      forall fuel, _skip_occupied_states fuel s = None).
Proof.
  assert (Sound : forall fuel s1,
             _skip_occupied_states fuel s = Some s1 ->
             exists n, (n < fuel)%nat
                       /\ iterate n occupied_body s = Some s1
                       /\ (forall k, (k < n)%nat ->
                             exists sk, iterate k occupied_body s = Some sk
                                        /\ _is_busy (ram (env sk))
                                           || _is_world_over (ram (env sk)) = true)
                       /\ _is_busy (ram (env s1)) || _is_world_over (ram (env s1))
                          = false).
  { intros fuel s1 R. unfold _skip_occupied_states in R.
    apply while_loop_run in R. destruct R as [n [L [I [C P]]]].
    exists n. split; [exact L|]. split; [exact I|]. split.
    - intros k Lk. destruct (P k Lk) as [sk [Ik Ck]]. exists sk.
      split; [exact Ik|]. unfold occupied_cond in Ck. congruence.
    - unfold occupied_cond in C. congruence. }
  split; [|split; [|split]].
  - split.
    + intros [fuel R]. destruct (Sound fuel s' R) as [n [_ [I [P C]]]].
      apply orb_false_iff in C. exists n. tauto.
    + intros [n [I [P [C1 C2]]]]. exists (S n). unfold _skip_occupied_states.
      apply (while_loop_enough occupied_cond occupied_body n s s' I).
      * unfold occupied_cond. now rewrite C1, C2.
      * intros k Lk. destruct (P k Lk) as [sk [Ik Ck]]. exists sk.
        split; [exact Ik|]. unfold occupied_cond. now rewrite Ck.
      * lia.
  - intros fuel R. destruct (Sound fuel s' R) as [n [L [I [_ C]]]].
    apply orb_false_iff in C.
    pose proof (iterate_extends occupied_body (fun _ => occupied_events) n
                  (fun _ _ _ => eq_refl)
                  (fun a b => occupied_body_extends a b) s s' I) as [T M].
    exists n. tauto.
  - intros C1 C2 fuel. unfold _skip_occupied_states. cbn [while_loop].
    unfold occupied_cond. rewrite C1, C2. reflexivity.
  - intros A fuel. destruct (_skip_occupied_states fuel s) as [s1|] eqn:R;
      [|reflexivity].
    destruct (Sound fuel s1 R) as [n [_ [I [_ C]]]].
    rewrite (A n s1 I) in C. discriminate.
Qed.

Lemma skip_occupied_states_runs_witness :
  _is_busy (ram (env pipe_session)) = false
  /\ _is_world_over (ram (env pipe_session)) = false
  /\ _skip_occupied_states 1 pipe_session = Some pipe_session.
Proof.
  assert (B : _is_busy (ram (env pipe_session)) = false) by (vm_compute; reflexivity).
  assert (W : _is_world_over (ram (env pipe_session)) = false)
    by (vm_compute; reflexivity).
  split; [exact B|]. split; [exact W|].
  exact (proj1 (proj2 (proj2 (skip_occupied_states_runs demo_console pipe_session
                                 pipe_session))) B W O).
Defined.

(** ** End of a world *)

Lemma iterate_world_body {E : Emulator} (n : nat) (s : Session E) :
  iterate n world_body s = Some (Nat.iter n (_frame_advance 0) s).
Proof.
  revert s. induction n as [|n IH]; intros s; [reflexivity|].
  cbn [iterate]. unfold world_body at 1. cbn [bind]. rewrite IH.
  now rewrite Nat.iter_succ_r.
Qed.

(** X18.  Away from the end of a world [_skip_end_of_world] returns at
    once, whatever the bound put on its loop, and does nothing.  At the
    end of a world it returns exactly when, for some [n] of at least 1
    below the bound, the time still reads as at the call after each of
    the first [n - 1] frames and reads otherwise after the [n]-th; it
    returns the state reached by these [n] frames, all run with no
    button held.  So it does return as soon as the bound exceeds the
    number of frames the time takes to change. *)
Theorem skip_end_of_world_runs (E : Emulator) (s : Session E) :
  (_is_world_over (ram (env s)) = false ->
   forall fuel, _skip_end_of_world fuel s = Some s)
  /\ (_is_world_over (ram (env s)) = true ->
      forall fuel s',
        _skip_end_of_world fuel s = Some s' <->
        exists n t0 t',
          (1 <= n < fuel)%nat
          /\ _time (ram (env s)) = Some t0
          /\ s' = Nat.iter n (_frame_advance 0) s
          /\ (forall k, (k < n)%nat ->
                _time (ram (env (Nat.iter k (_frame_advance 0) s))) = Some t0)
          /\ _time (ram (env s')) = Some t'
          /\ t' <> t0)
  /\ (forall n, trace (Nat.iter n (_frame_advance 0) s)
                = trace s ++ repeat_events n [EvFrame 0]).
Proof.
  split; [|split].
  - intros W fuel. unfold _skip_end_of_world. now rewrite W.
  - intros W fuel s'. unfold _skip_end_of_world. rewrite W. split.
    + intros R.
      destruct (_time (ram (env s))) as [t0|] eqn:T0; [|discriminate].
      cbn [bind] in R. apply while_loop_run in R.
      destruct R as [n [L [I [C P]]]].
      rewrite iterate_world_body in I. injection I as I.
      unfold world_cond in C.
      destruct (_time (ram (env s'))) as [t'|] eqn:T'; [|discriminate].
      cbn [bind] in C. injection C as C. apply Z.eqb_neq in C.
      assert (N : n <> O).
      { intros ->. cbn [Nat.iter nat_rect] in I. subst s'. congruence. }
      exists n, t0, t'. split; [lia|]. split; [reflexivity|].
      split; [now symmetry|]. split; [|split; [reflexivity | exact C]].
      intros k Lk. destruct (P k Lk) as [sk [Ik Ck]].
      rewrite iterate_world_body in Ik. injection Ik as Ik. subst sk.
      unfold world_cond in Ck.
      destruct (_time (ram (env (Nat.iter k (_frame_advance 0) s)))) as [tk|];
        [|discriminate].
      cbn [bind] in Ck. injection Ck as Ck. apply Z.eqb_eq in Ck. now subst tk.
    + intros [n [t0 [t' [L [T0 [I [P [T' N]]]]]]]].
      rewrite T0. cbn [bind].
      apply (while_loop_enough (world_cond t0) world_body n s s').
      * rewrite iterate_world_body. now subst s'.
      * unfold world_cond. rewrite T'. cbn [bind]. f_equal.
        now apply Z.eqb_neq.
      * intros k Lk. exists (Nat.iter k (_frame_advance 0) s).
        split; [apply iterate_world_body|].
        unfold world_cond. rewrite (P k Lk). cbn [bind]. f_equal.
        apply Z.eqb_refl.
      * lia.
  - intros n.
    exact (proj1 (iterate_extends world_body (fun _ => [EvFrame 0]) n
                    (fun _ _ _ => eq_refl)
                    (fun a b => world_body_extends a b) s _
                    (iterate_world_body n s))).
Qed.

Lemma skip_end_of_world_runs_witness :
  _is_world_over (ram (env world_over_session)) = true
  /\ exists s' n t0 t',
       _skip_end_of_world 5 world_over_session = Some s'
       /\ (1 <= n < 5)%nat
       /\ _time (ram (env world_over_session)) = Some t0
       /\ s' = Nat.iter n (_frame_advance 0) world_over_session
       /\ _time (ram (env s')) = Some t'
       /\ t' <> t0.
Proof.
  assert (W : _is_world_over (ram (env world_over_session)) = true)
    by (vm_compute; reflexivity).
  split; [exact W|].
  destruct (_skip_end_of_world 5 world_over_session) as [s'|] eqn:R;
    [|vm_compute in R; discriminate].
  destruct (proj1 (proj1 (proj2 (skip_end_of_world_runs demo_console
                                   world_over_session)) W 5%nat s') R)
    as [n [t0 [t' [L [T0 [I [_ [T' N]]]]]]]].
  exists s', n, t0, t'. repeat split; try assumption; lia.
Defined.

(** ** After a step *)

Lemma kill_mario_quiet {E : Emulator} (s : Session E) :
  extends [EvStore 0x000e 0x06; EvFrame 0] s (_kill_mario s).
Proof.
  unfold _kill_mario.
  apply (extends_trans [_] [_] s (store 0x000e 0x06 s)).
  - apply (store_extends 0x000e 0x06).
  - apply frame_advance_extends.
Qed.

Lemma skip_end_of_world_quiet {E : Emulator} (fuel : nat) (s s' : Session E) :
  _skip_end_of_world fuel s = Some s' -> quiet_step s s'.
Proof.
  unfold _skip_end_of_world. intros R.
  destruct (_is_world_over (ram (env s))).
  - destruct (_time (ram (env s))) as [t0|]; [|discriminate].
    cbn [bind] in R. apply while_loop_run in R.
    destruct R as [n [_ [I _]]].
    apply (quiet_step_intro (repeat_events n [EvFrame 0])).
    + exact (iterate_extends world_body (fun _ => [EvFrame 0]) n
               (fun _ _ _ => eq_refl)
               (fun a b => world_body_extends a b) s s' I).
    + now apply repeat_events_quiet.
  - injection R as <-. apply quiet_step_refl.
Qed.

Lemma skip_change_area_quiet {E : Emulator} (s : Session E) :
  quiet_step s (_skip_change_area s).
Proof.
  unfold _skip_change_area.
  destruct (_ && _); [|apply quiet_step_refl].
  apply (quiet_step_intro [EvStore 0x06DE 1]); [|reflexivity].
  apply (store_extends 0x06DE 1).
Qed.

Lemma skip_occupied_states_quiet {E : Emulator} (fuel : nat) (s s' : Session E) :
  _skip_occupied_states fuel s = Some s' ->
  quiet_step s s'
  /\ _is_busy (ram (env s')) = false
  /\ _is_world_over (ram (env s')) = false.
Proof.
  unfold _skip_occupied_states. intros R. apply while_loop_run in R.
  destruct R as [n [_ [I [C _]]]]. split.
  - apply (quiet_step_intro (repeat_events n occupied_events)).
    + exact (iterate_extends occupied_body (fun _ => occupied_events) n
               (fun _ _ _ => eq_refl)
               (fun a b => occupied_body_extends a b) s s' I).
    + now apply repeat_events_quiet.
  - unfold occupied_cond in C. injection C as C. now apply orb_false_iff in C.
Qed.

(** X19.  [_did_step] does nothing when the episode is over.  Otherwise,
    when it returns, Mario is neither busy nor at the end of a world;
    on the way the console only got frames with no button held and
    writes of 6 to the player state, 1 to the change-area timer and 0
    to the pre-level timer, and the target is as before.  When Mario
    was dying the first thing done is to write him dead and run one
    frame. *)
Theorem did_step_effect (E : Emulator) (fuel : nat) (s s' : Session E) :
  _did_step fuel true s = Some s
  /\ (_did_step fuel false s = Some s' ->
      quiet_step s s'
      /\ _is_busy (ram (env s')) = false
      /\ _is_world_over (ram (env s')) = false
      /\ (_is_dying (ram (env s)) = true ->
          exists evs,
            trace s' = trace s ++ [EvStore 0x000e 0x06; EvFrame 0] ++ evs)).
Proof.
  split; [reflexivity|]. unfold _did_step.
  set (s0 := if _is_dying (ram (env s)) then _kill_mario s else s).
  intros R.
  destruct (if negb (is_single_stage_env (env s0))
            then _skip_end_of_world fuel s0 else Some s0) as [s1|] eqn:W;
    [|discriminate].
  cbn [bind] in R.
  assert (Q0 : quiet_step s s0).
  { subst s0. destruct (_is_dying (ram (env s))); [|apply quiet_step_refl].
    apply (quiet_step_intro _ _ _ (kill_mario_quiet s)). reflexivity. }
  assert (Q1 : quiet_step s0 s1).
  { destruct (negb (is_single_stage_env (env s0))).
    - now apply (skip_end_of_world_quiet fuel).
    - injection W as <-. apply quiet_step_refl. }
  pose proof (skip_change_area_quiet s1) as Q2.
  destruct (skip_occupied_states_quiet fuel _ s' R) as [Q3 [B Wo]].
  pose proof (quiet_step_trans _ _ _ Q1 (quiet_step_trans _ _ _ Q2 Q3)) as Q13.
  split; [exact (quiet_step_trans _ _ _ Q0 Q13)|].
  split; [exact B|]. split; [exact Wo|].
  intros D. destruct Q13 as [evs [[T _] _]]. exists evs.
  rewrite T. subst s0. rewrite D.
  rewrite (proj1 (kill_mario_quiet s)). now rewrite <- app_assoc.
Qed.

Lemma did_step_effect_witness :
  exists s',
    _did_step 2 false pit_session = Some s'
    /\ _is_dying (ram (env pit_session)) = true
    /\ _is_busy (ram (env s')) = false
    /\ exists evs, trace s' = trace pit_session
                              ++ [EvStore 0x000e 0x06; EvFrame 0] ++ evs.
Proof.
  destruct (_did_step 2 false pit_session) as [s'|] eqn:R;
    [|vm_compute in R; discriminate].
  assert (D : _is_dying (ram (env pit_session)) = true) by (vm_compute; reflexivity).
  exists s'. split; [reflexivity|]. split; [exact D|].
  destruct (proj2 (did_step_effect demo_console 2 pit_session s') R)
    as [_ [B [_ K]]].
  split; [exact B | exact (K D)].
Defined.

(** ** The clock after the start screen *)









(** ** Checkpoint bonus of the training loop *)

Lemma shaping_run_inv (x0 : Z) (obs : list (Z * Z)) :
  forall (st : Shaping) (acc : Z) (n : nat),
    1 <= contador st ->
    checkpoint st = x0 + 100 * contador st ->
    total_reward st
    = acc + 3000 * (contador st - 1) + 250 * (contador st - 1) * contador st ->
    contador st - 1 <= Z.of_nat n ->
    let st' := shaping_run st obs in
    1 <= contador st'
    /\ checkpoint st' = x0 + 100 * contador st'
    /\ total_reward st'
       = fold_left (fun a o => a + snd o) obs acc
         + 3000 * (contador st' - 1) + 250 * (contador st' - 1) * contador st'
    /\ contador st' - 1 <= Z.of_nat (n + List.length obs).
Proof.
  induction obs as [|[x rew] obs IH]; intros st acc n C K T L.
  - cbn. rewrite Nat.add_0_r. auto.
  - change (shaping_run st ((x, rew) :: obs))
      with (shaping_run (snd (shaping_step st x rew)) obs).
    cbv zeta. cbn [fold_left snd].
    replace (n + List.length ((x, rew) :: obs))%nat
      with (S n + List.length obs)%nat by (cbn [List.length]; lia).
    apply (IH (snd (shaping_step st x rew)) (acc + rew) (S n));
      unfold shaping_step; destruct (x >=? checkpoint st);
      cbn [snd contador checkpoint total_reward]; try lia;
      rewrite T; ring.
Qed.

(** X21.  The checkpoint bonus of the training loop.  After any number
    of steps, with [k] checkpoints credited so far, the next checkpoint
    lies [100 * (k + 1)] past the starting position and the total is
    the sum of the rewards of the environment plus
    [3000 * k + 250 * k * (k + 1)].  One step credits at most one
    checkpoint, however far Mario has got. *)
Theorem checkpoint_bonus_total (x0 : Z) (obs : list (Z * Z)) :
  let st := shaping_run (shaping_init x0) obs in
  let k := contador st - 1 in
  0 <= k <= Z.of_nat (List.length obs)
  /\ checkpoint st = x0 + 100 * (k + 1)
  /\ total_reward st = sum_rewards obs + 3000 * k + 250 * k * (k + 1)
  /\ (forall x rew,
        fst (shaping_step st x rew)
        = if x >=? checkpoint st then rew + 3000 + 500 * (k + 1) else rew).
Proof.
  intros st k.
  destruct (shaping_run_inv x0 obs (shaping_init x0) 0 O) as [C [K [T L]]];
    try (cbn; lia).
  fold st in C, K, T, L. cbn [Nat.add] in L. subst k.
  split; [lia|]. split; [lia|]. split.
  { unfold sum_rewards. rewrite T. ring. }
  intros x rew. unfold shaping_step.
  destruct (x >=? checkpoint st); cbn [fst]; [ring | reflexivity].
Qed.

(** ** Player states *)

(** X22.  Mario is busy exactly in the states 0 to 5 and 7.  A dead
    Mario (6), a dying one (0x0B) and one in the normal state (8) are
    not busy, so the occupied-state loop does not wait on them. *)
Theorem busy_states (m : RAM) :
  (_is_busy m = true <-> In (_player_state m) _BUSY_STATES)
  /\ (ram_ok m = true ->
      (_is_busy m = true <-> _player_state m <= 7 /\ _player_state m <> 6))
  /\ (_is_dead m = true -> _is_busy m = false)
  /\ (_player_state m = 0x0b -> _is_dying m = true /\ _is_busy m = false)
  /\ (_player_state m = 0x08 -> _is_busy m = false /\ _is_dead m = false).
Proof.
  assert (B : _is_busy m = true <-> In (_player_state m) _BUSY_STATES).
  { unfold _is_busy. rewrite existsb_exists. split.
    - intros [x [I X]]. apply Z.eqb_eq in X. now subst x.
    - intros I. exists (_player_state m). split; [exact I | apply Z.eqb_refl]. }
  assert (N : forall v, _player_state m = v -> ~ In v _BUSY_STATES ->
                        _is_busy m = false).
  { intros v V I. destruct (_is_busy m) eqn:Q; [|reflexivity].
    exfalso. apply I. rewrite <- V. now apply B. }
  split; [exact B|]. split; [|split; [|split]].
  - intros H. rewrite B. unfold _BUSY_STATES. cbn [In].
    pose proof (ram_at_byte m 0x000e H) as R. unfold _player_state. lia.
  - unfold _is_dead. intros D. apply Z.eqb_eq in D.
    apply (N 0x06 D). cbn [_BUSY_STATES In]. lia.
  - intros V. split.
    + unfold _is_dying. rewrite V. reflexivity.
    + apply (N 0x0b V). cbn [_BUSY_STATES In]. lia.
  - intros V. split.
    + apply (N 0x08 V). cbn [_BUSY_STATES In]. lia.
    + unfold _is_dead. rewrite V. reflexivity.
Qed.

Lemma busy_states_witness :
  _is_dead dead_ram = true /\ _is_busy dead_ram = false.
Proof.
  assert (D : _is_dead dead_ram = true) by (vm_compute; reflexivity).
  split; [exact D|].
  exact (proj1 (proj2 (proj2 (busy_states dead_ram))) D).
Defined.

(** ** Enemy-type slots *)

(** X23.  [_is_enemy] returns the bytes of the five enemy-type slots in
    slot order, and the stage is over exactly when that list holds the
    Bowser byte or the flagpole byte while the float-state register
    is 3. *)
Theorem is_enemy_slots (m : RAM) :
  _is_enemy m = map (ram_at m) _ENEMY_TYPE_ADDRESSES
  /\ List.length (_is_enemy m) = 5%nat
  /\ (_is_stage_over m = true <->
      (In 0x2D (_is_enemy m) \/ In 0x31 (_is_enemy m)) /\ ram_at m 0x001D = 3)
  /\ (ram_ok m = true -> Forall (fun v => 0 <= v < 256) (_is_enemy m)).
Proof.
  assert (E : _is_enemy m = map (ram_at m) _ENEMY_TYPE_ADDRESSES) by reflexivity.
  split; [exact E|]. split; [reflexivity|]. split.
  - rewrite E. pose proof (stage_over_scan m) as S. unfold _is_stage_over.
    destruct (np_any _) eqn:A.
    + rewrite Z.eqb_eq. split.
      * intros F. split; [|exact F].
        destruct (proj1 S eq_refl) as [a [Ia [V | V]]]; [left | right];
          rewrite <- V; now apply in_map.
      * tauto.
    + split; [discriminate|]. intros [[I | I] _];
        apply in_map_iff in I; destruct I as [a [V Ia]];
        assert (X : false = true) by (apply S; exists a; auto);
        discriminate.
  - intros H. rewrite E. apply Forall_forall. intros v I.
    apply in_map_iff in I. destruct I as [a [<- _]]. now apply ram_at_byte.
Qed.

Lemma is_enemy_slots_witness :
  ram_ok flagpole_ram = true
  /\ Forall (fun v => 0 <= v < 256) (_is_enemy flagpole_ram)
  /\ _is_enemy flagpole_ram = [0; 0; 0x31; 0; 0].
Proof.
  assert (H : ram_ok flagpole_ram = true) by (vm_compute; reflexivity).
  split; [exact H|]. split.
  - exact (proj2 (proj2 (proj2 (is_enemy_slots flagpole_ram))) H).
  - vm_compute. reflexivity.
Defined.
